(** * pyspedas: ELFIN EPD loading and MMS state / local file lookup

    A shallow embedding of three routines of the repository,

    - [pyspedas/elfin/epd/epd.py]                      ([elfin_load_epd]),
    - [pyspedas/mms/mec_ascii/mms_get_state_data.py]   ([mms_get_state_data]),
    - [pyspedas/mms/mms_get_local_files.py]            ([mms_get_local_files]),

    and the properties the specification states about them.

    Conventions.  Python [str] values are [string]s; a [list] is a [list];
    a [dict] used as a table is a [gmap]; a [set] is a [gset] together with
    the order in which the interpreter iterates over it.  A routine that can
    raise returns an option, or a sum of its normal result and the
    exception.  Calls that
    leave the sources (the loader, the post-processing routines, the HTTP
    session, the date parsers) are parameters of the Sections below.
    Logging calls have no effect on any result and are left out. *)

From Stdlib Require Import ZArith String Ascii List Lia Bool.
From Stdlib Require Strings.Byte.
From Stdlib Require Import Floats.SpecFloat.
From stdpp Require Import base option list gmap sets strings pretty sorting.

Local Open Scope string_scope.
Local Open Scope Z_scope.
Local Open Scope list_scope.

(** Linear arithmetic with division and remainder by numerals. *)
Ltac div_lia := Z.to_euclidean_division_equations; lia.

(** ** Python string operations used by the routines *)

Module PyStr.

(** [pat in s]: [pat] occurs in [s] as a contiguous substring. *)
Fixpoint contains (pat s : string) : bool :=
  String.prefix pat s ||
  match s with
  | EmptyString => false
  | String _ r => contains pat r
  end.

(** [s.replace(pat, "")] for a non-empty [pat]: the occurrences of [pat]
    are found from left to right, without overlap, and dropped.  [skip]
    counts the characters of the occurrence being dropped that are still
    ahead. *)
Fixpoint remove_from (skip : nat) (pat s : string) : string :=
  match s with
  | EmptyString => EmptyString
  | String c r =>
      match skip with
      | S k => remove_from k pat r
      | O =>
          if String.prefix pat s
          then remove_from (Nat.pred (String.length pat)) pat r
          else String c (remove_from O pat r)
      end
  end.

Definition remove (pat s : string) : string := remove_from O pat s.

(** [os.sep.join(parts)] *)
Fixpoint join (sep : string) (parts : list string) : string :=
  match parts with
  | [] => ""
  | [p] => p
  | p :: rest => p +:+ sep +:+ join sep rest
  end.

Lemma app_cons (c : ascii) (a b : string) :
  String c a +:+ b = String c (a +:+ b).
Proof. reflexivity. Qed.

Lemma prefix_app (pat s : string) :
  String.prefix pat s = true ↔ ∃ post, s = pat +:+ post.
Proof.
  revert s. induction pat as [|c pat IH]; intros s.
  - split; [intros _; exists s; reflexivity | intros _; destruct s; reflexivity].
  - destruct s as [|d s]; simpl.
    { split; [discriminate | intros [post H]; discriminate H]. }
    destruct (Ascii.ascii_dec c d) as [->|Hne].
    + rewrite IH. split; intros [post H]; exists post;
        rewrite app_cons in *; congruence.
    + split; [discriminate|].
      intros [post H]. rewrite app_cons in H. congruence.
Qed.

Lemma contains_nil (pat : string) :
  contains pat "" = String.prefix pat "" || false.
Proof. reflexivity. Qed.

Lemma contains_cons (pat : string) (c : ascii) (s : string) :
  contains pat (String c s) = String.prefix pat (String c s) || contains pat s.
Proof. reflexivity. Qed.

(** [contains] is the substring test. *)
Lemma contains_spec (pat s : string) :
  contains pat s = true ↔ ∃ pre post, s = pre +:+ pat +:+ post.
Proof.
  induction s as [|c s IH].
  - rewrite contains_nil, orb_true_iff, prefix_app. split.
    + intros [[post H]|H]; [|discriminate]. exists "", post. exact H.
    + intros (pre & post & H). left. destruct pre; [exists post; exact H|].
      discriminate H.
  - rewrite contains_cons, orb_true_iff, prefix_app, IH. split.
    + intros [[post H]|(pre & post & H)].
      * exists "", post. exact H.
      * exists (String c pre), post. rewrite app_cons. congruence.
    + intros (pre & post & H). destruct pre as [|d pre].
      * left. exists post. exact H.
      * right. exists pre, post. rewrite app_cons in H. congruence.
Qed.

Example contains_sector : contains "_32" "ela_pef_hs_Epat_32_nflux" = true.
Proof. reflexivity. Qed.

Example remove_sector :
  remove "_32" "ela_pef_hs_Epat_32_nflux" = "ela_pef_hs_Epat_nflux".
Proof. reflexivity. Qed.

(** Occurrences are dropped in one pass: what the pass leaves is not
    searched again. *)
Example remove_one_pass : remove "_32" "a_3_322" = "a_32".
Proof. reflexivity. Qed.

End PyStr.

(** ** A calendar to run the routines on

    The routines read and print dates through [pyspedas.time_double],
    [pyspedas.time_string], [dateutil.parser.parse] and [strftime], which
    are outside the sources: the Sections below take them as parameters.
    This module gives one implementation (UTC, proleptic Gregorian
    calendar, whole seconds since 1970-01-01) for the formats that occur
    in the examples, so that the routines can be run on concrete inputs. *)

Module Cal.

Definition days_from_civil (y m d : Z) : Z :=
  let y := if m <=? 2 then y - 1 else y in
  let era := y / 400 in
  let yoe := y - era * 400 in
  let mp := (m + 9) mod 12 in
  let doy := (153 * mp + 2) / 5 + d - 1 in
  let doe := yoe * 365 + yoe / 4 - yoe / 100 + doy in
  era * 146097 + doe - 719468.

Definition civil_from_days (z : Z) : Z * Z * Z :=
  let z := z + 719468 in
  let era := z / 146097 in
  let doe := z - era * 146097 in
  let yoe := (doe - doe / 1460 + doe / 36524 - doe / 146096) / 365 in
  let doy := doe - (365 * yoe + yoe / 4 - yoe / 100) in
  let mp := (5 * doy + 2) / 153 in
  let d := doy - (153 * mp + 2) / 5 + 1 in
  let m := if mp <? 10 then mp + 3 else mp - 9 in
  let y := yoe + era * 400 in
  (if m <=? 2 then y + 1 else y, m, d).

Definition digit_of (c : ascii) : option Z :=
  let n := Z.of_nat (nat_of_ascii c) in
  if (48 <=? n) && (n <=? 57) then Some (n - 48) else None.

Definition is_digit (c : ascii) : bool :=
  match digit_of c with Some _ => true | None => false end.

(** The value of a non-empty string of decimal digits. *)
Fixpoint number_from (acc : Z) (s : string) : option Z :=
  match s with
  | EmptyString => Some acc
  | String c r =>
      match digit_of c with
      | Some d => number_from (10 * acc + d) r
      | None => None
      end
  end.

Definition number (s : string) : option Z :=
  match s with
  | EmptyString => None
  | _ => number_from 0 s
  end.

Definition digit_char (n : Z) : ascii :=
  ascii_of_nat (Z.to_nat (48 + n mod 10)).

(** [n] in decimal on [width] digits, with leading zeros. *)
Fixpoint pad (width : nat) (n : Z) : string :=
  match width with
  | O => ""
  | S k => pad k (n / 10) +:+ String (digit_char n) ""
  end.

(** Seconds since the epoch of a calendar date and a time of day, when
    they exist. *)
Definition seconds_of (y m d hh mm ss : Z) : option Z :=
  if bool_decide (civil_from_days (days_from_civil y m d) = (y, m, d))
     && (0 <=? hh) && (hh <? 24) && (0 <=? mm) && (mm <? 60)
     && (0 <=? ss) && (ss <? 60)
  then Some (86400 * days_from_civil y m d + 3600 * hh + 60 * mm + ss)
  else None.

Definition field (s : string) (start len : nat) : option Z :=
  number (String.substring start len s).

Definition char_at (s : string) (i : nat) : option ascii := String.get i s.

(** [YYYY-MM-DD], alone or followed by one of the separators [seps] and
    [hh:mm:ss]. *)
Definition read_iso (seps : list ascii) (s : string) : option Z :=
  y ← field s 0 4; m ← field s 5 2; d ← field s 8 2;
  if negb (bool_decide (char_at s 4 = Some "-"%char
                        ∧ char_at s 7 = Some "-"%char)) then None
  else if Nat.eqb (String.length s) 10 then seconds_of y m d 0 0 0
  else if Nat.eqb (String.length s) 19 then
    hh ← field s 11 2; mm ← field s 14 2; ss ← field s 17 2;
    sep ← char_at s 10;
    if bool_decide (sep ∈ seps ∧ char_at s 13 = Some ":"%char
                    ∧ char_at s 16 = Some ":"%char)
    then seconds_of y m d hh mm ss else None
  else None.

(** Digits only: [YYYYMMDD], [YYYYMMDDhhmm] or [YYYYMMDDhhmmss]. *)
Definition read_digits (s : string) : option Z :=
  let n := String.length s in
  if forallb is_digit (list_ascii_of_string s)
     && (Nat.eqb n 8 || Nat.eqb n 12 || Nat.eqb n 14) then
    y ← field s 0 4; m ← field s 4 2; d ← field s 6 2;
    hh ← (if Nat.ltb 8 n then field s 8 2 else Some 0);
    mm ← (if Nat.ltb 8 n then field s 10 2 else Some 0);
    ss ← (if Nat.ltb 12 n then field s 12 2 else Some 0);
    seconds_of y m d hh mm ss
  else None.

(** A reader in the manner of [dateutil.parser.parse]: [None] stands for
    the exception raised on a text that is not a date. *)
Definition parse (s : string) : option Z :=
  match read_digits s with
  | Some t => Some t
  | None => read_iso [" "%char; "T"%char] s
  end.

(** A reader in the manner of [time_double] on strings. *)
Definition time_double_str (s : string) : Z :=
  default 0 (read_iso ["/"%char; " "%char; "T"%char] s).

(** [strftime]: the directives [%Y %m %d %H %M %S]; any other character
    stands for itself. *)
Fixpoint strftime (fmt : string) (t : Z) : string :=
  match fmt with
  | String "%" (String c rest) =>
      let '(y, m, d) := civil_from_days (t / 86400) in
      let sod := t mod 86400 in
      let text :=
        if Ascii.eqb c "Y" then pad 4 y
        else if Ascii.eqb c "m" then pad 2 m
        else if Ascii.eqb c "d" then pad 2 d
        else if Ascii.eqb c "H" then pad 2 (sod / 3600)
        else if Ascii.eqb c "M" then pad 2 (sod mod 3600 / 60)
        else if Ascii.eqb c "S" then pad 2 (sod mod 60)
        else String "%" (String c "") in
      text +:+ strftime rest t
  | String c rest => String c (strftime rest t)
  | EmptyString => ""
  end.

(** [time_string(t, fmt=...)] *)
Definition time_string (t : Z) (fmt : string) : string := strftime fmt t.

(** The text of the day with number [n]. *)
Definition ymd (n : Z) : string := strftime "%Y-%m-%d" (86400 * n).

Example epoch : days_from_civil 1970 1 1 = 0.
Proof. reflexivity. Qed.

Example day_2015_10_16 : time_double_str "2015-10-16" = 1444953600.
Proof. vm_compute. reflexivity. Qed.

Example noon_2015_10_16 :
  time_double_str "2015-10-16/12:00:00" = 1444953600 + 43200.
Proof. vm_compute. reflexivity. Qed.

Example print_2015_10_16 :
  time_string 1444996800 "%Y-%m-%d" = "2015-10-16".
Proof. vm_compute. reflexivity. Qed.

Example parse_digits : parse "20151016123000" = Some (1444953600 + 45000).
Proof. vm_compute. reflexivity. Qed.

Example parse_no_such_day : parse "20150230" = None.
Proof. vm_compute. reflexivity. Qed.

Lemma strftime_ymd (t : Z) :
  strftime "%Y-%m-%d" t =
    let '(y, m, d) := civil_from_days (t / 86400) in
    pad 4 y +:+ "-" +:+ pad 2 m +:+ "-" +:+ pad 2 d.
Proof.
  cbn [strftime Ascii.eqb Bool.eqb].
  destruct (civil_from_days (t / 86400)) as [[y m] d]. reflexivity.
Qed.

Lemma time_string_ymd (t : Z) :
  time_string t "%Y-%m-%d" = ymd (t / 86400).
Proof.
  unfold ymd, time_string. rewrite !strftime_ymd.
  replace (86400 * (t / 86400) / 86400) with (t / 86400); [reflexivity|].
  symmetry. rewrite Z.mul_comm. apply Z.div_mul. discriminate.
Qed.

(** *** Days print and read back *)

(** The two conversions are inverse to each other on every day, and the
    years from 0000-03-01 to 9999-12-31 have four digits. *)
Lemma civil_from_days_spec (n : Z) :
  let '(y, m, d) := civil_from_days n in
  days_from_civil y m d = n ∧ 1 <= m <= 12 ∧ 1 <= d <= 31
  ∧ (-719468 <= n <= 2932896 → 0 <= y < 10000).
Proof.
  unfold civil_from_days, days_from_civil. cbv zeta.
  set (z := n + 719468).
  set (era := z / 146097).
  set (doe := z - era * 146097).
  assert (Hdoe : 0 <= doe < 146097) by (subst doe era; div_lia).
  set (yoe := (doe - doe / 1460 + doe / 36524 - doe / 146096) / 365).
  set (doy := doe - (365 * yoe + yoe / 4 - yoe / 100)).
  assert (Hyoe : 0 <= yoe < 400 ∧ 0 <= doy < 366)
    by (subst doy yoe; clearbody doe; clear -Hdoe; div_lia).
  set (mp := (5 * doy + 2) / 153).
  assert (Hmp : 0 <= mp < 12) by (subst mp; clearbody doy; div_lia).
  assert (Hmpd : mp = (5 * doy + 2) / 153) by reflexivity.
  assert (Hz : n = era * 146097 + doe - 719468) by (subst doe z; lia).
  assert (Hd : doe = yoe * 365 + yoe / 4 - yoe / 100 + doy)
    by (subst doy; lia).
  assert (Hera : -719468 <= n <= 2932896 → 0 <= era < 25)
    by (subst era z; div_lia).
  assert (Hlast : -719468 <= n <= 2932896 → era = 24 → yoe = 399 → mp < 10).
  { intros Hn He Hy. subst z. clearbody era doe yoe doy mp. div_lia. }
  clearbody doy mp yoe era doe. clear z.
  destruct (Z.ltb_spec mp 10).
  - destruct (Z.leb_spec (mp + 3) 2); [lia|]. repeat split; div_lia.
  - destruct (Z.leb_spec (mp - 9) 2); [|lia]. repeat split; div_lia.
Qed.

Lemma digit_of_char (k : Z) : digit_of (digit_char k) = Some (k mod 10).
Proof.
  assert (H : 0 <= k mod 10 < 10) by (apply Z.mod_pos_bound; lia).
  unfold digit_char. generalize dependent (k mod 10). intros r Hr.
  assert (Hc : r = 0 ∨ r = 1 ∨ r = 2 ∨ r = 3 ∨ r = 4 ∨ r = 5 ∨ r = 6
               ∨ r = 7 ∨ r = 8 ∨ r = 9) by lia.
  destruct Hc as [->|[->|[->|[->|[->|[->|[->|[->|[->| ->]]]]]]]]];
    reflexivity.
Qed.

Lemma pad4 (y : Z) :
  pad 4 y = String (digit_char (y / 10 / 10 / 10))
              (String (digit_char (y / 10 / 10))
                 (String (digit_char (y / 10)) (String (digit_char y) ""))).
Proof. reflexivity. Qed.

Lemma pad2 (y : Z) :
  pad 2 y = String (digit_char (y / 10)) (String (digit_char y) "").
Proof. reflexivity. Qed.

Lemma number4 (a b c d : Z) :
  number (String (digit_char a) (String (digit_char b)
            (String (digit_char c) (String (digit_char d) ""))))
  = Some (10 * (10 * (10 * (10 * 0 + a mod 10) + b mod 10) + c mod 10)
          + d mod 10).
Proof.
  unfold number. cbn [number_from]. rewrite !digit_of_char. reflexivity.
Qed.

Lemma number2 (c d : Z) :
  number (String (digit_char c) (String (digit_char d) ""))
  = Some (10 * (10 * 0 + c mod 10) + d mod 10).
Proof.
  unfold number. cbn [number_from]. rewrite !digit_of_char. reflexivity.
Qed.

Lemma read_iso_date (seps : list ascii) (y m d : Z) :
  0 <= y < 10000 → 0 <= m < 100 → 0 <= d < 100 →
  read_iso seps (pad 4 y +:+ "-" +:+ pad 2 m +:+ "-" +:+ pad 2 d)
  = seconds_of y m d 0 0 0.
Proof.
  intros Hy Hm Hd. rewrite pad4, !pad2. unfold read_iso, field, char_at.
  change (String.substring 0 4 _)
    with (String (digit_char (y / 10 / 10 / 10))
            (String (digit_char (y / 10 / 10))
               (String (digit_char (y / 10)) (String (digit_char y) "")))).
  change (String.substring 5 2 _)
    with (String (digit_char (m / 10)) (String (digit_char m) "")).
  change (String.substring 8 2 _)
    with (String (digit_char (d / 10)) (String (digit_char d) "")).
  rewrite number4, !number2. cbn [mbind option_bind].
  change (String.get 4 _) with (Some "-"%char).
  change (String.get 7 _) with (Some "-"%char).
  change (String.length _) with 10%nat.
  rewrite bool_decide_eq_true_2 by (split; reflexivity).
  cbn [negb Nat.eqb]. f_equal; div_lia.
Qed.

Lemma read_digits_date (y m d : Z) :
  read_digits (pad 4 y +:+ "-" +:+ pad 2 m +:+ "-" +:+ pad 2 d) = None.
Proof.
  rewrite pad4, !pad2. unfold read_digits.
  change (String.length _) with 10%nat. cbn [Nat.eqb orb].
  rewrite andb_false_r. reflexivity.
Qed.

(** From 0000-03-01 to 9999-12-31 the text of a day reads back, with
    either reader, as the midnight of that day. *)
Lemma ymd_reads_back (seps : list ascii) (n : Z) :
  -719468 <= n <= 2932896 → read_iso seps (ymd n) = Some (86400 * n).
Proof.
  intros Hn. unfold ymd. rewrite strftime_ymd.
  replace (86400 * n / 86400) with n
    by (symmetry; rewrite Z.mul_comm; apply Z.div_mul; discriminate).
  pose proof (civil_from_days_spec n) as H.
  destruct (civil_from_days n) as [[y m] d] eqn:Hc.
  destruct H as (Hback & Hm & Hd & Hy).
  rewrite read_iso_date by lia. unfold seconds_of.
  rewrite Hback, Hc, bool_decide_eq_true_2 by reflexivity.
  cbn [andb Z.leb Z.ltb Z.compare]. f_equal. lia.
Qed.

Lemma time_double_ymd (n : Z) :
  -719468 <= n <= 2932896 → time_double_str (ymd n) = 86400 * n.
Proof.
  intros Hn. unfold time_double_str. rewrite ymd_reads_back by exact Hn.
  reflexivity.
Qed.

Lemma parse_day (t : Z) :
  -719468 <= t / 86400 <= 2932896 →
  parse (strftime "%Y-%m-%d" t) = Some (86400 * (t / 86400)).
Proof.
  intros Ht. change (strftime "%Y-%m-%d" t) with (time_string t "%Y-%m-%d").
  rewrite time_string_ymd. unfold parse.
  replace (read_digits (ymd (t / 86400))) with (@None Z).
  - apply ymd_reads_back, Ht.
  - unfold ymd. rewrite strftime_ymd.
    destruct (civil_from_days _) as [[y m] d]. symmetry.
    apply read_digits_date.
Qed.

End Cal.

(** ** ELFIN: [elfin_load_epd] *)

Module Elfin.

(** What [load] hands back: [None], a list of tplot variable names (or of
    downloaded files), or, under [notplot], a dictionary keyed by variable
    name (only the keys matter here). *)
Inductive load_result :=
| LNone
| LList (names : list string)
| LDict (keys : list string).

(** Python truth value of [not tvars]. *)
Definition py_not (r : load_result) : bool :=
  match r with
  | LNone | LList [] | LDict [] => true
  | _ => false
  end.

(** The load step came back with nothing: [None], or no name at all. *)
Definition empty_result (r : load_result) : Prop :=
  r = LNone ∨ ∃ l, l = [] ∧ (r = LList l ∨ r = LDict l).

(** The names a [for tvar in tvars] visits.  [None] is never iterated:
    [not tvars] returns first. *)
Definition iter_names (r : load_result) : list string :=
  match r with
  | LNone => []
  | LList l | LDict l => l
  end.

Inductive exn :=
| ValueError (msg : string)
| KeyError (key : string)
| AttributeError.

(** [CALIBRATED_TYPE_UNITS] *)
Definition CALIBRATED_TYPE_UNITS : gmap string string :=
  <["raw" := "counts/sector"]>
  (<["cps" := "counts/s"]>
  (<["nflux" := "#/(s-cm$^2$-str-MeV)"]>
  (<["eflux" := "keV/(s-cm$^2$-str-MeV)"]> ∅))).

(** [np.any(~np.isnan(y))] over all the entries of the array. *)
Definition is_nan (x : spec_float) : bool :=
  match x with S754_nan => true | _ => false end.

Definition any_not_nan (y : list spec_float) : bool :=
  existsb (fun x => negb (is_nan x)) y.

(** The specification's wording of the type normalisation and of the unit
    table, to be compared with what the routine computes. *)
Definition spec_known_types : list string := ["raw"; "cps"; "nflux"; "eflux"].

Definition spec_type (ty : string) : string :=
  if bool_decide (ty = "cal" ∨ ty = "calibrated" ∨ ty ∉ spec_known_types)
  then "nflux" else ty.

Definition spec_units : list (string * string) :=
  [ ("raw", "counts/sector");
    ("cps", "counts/s");
    ("nflux", "#/(s-cm$^2$-str-MeV)");
    ("eflux", "keV/(s-cm$^2$-str-MeV)") ].

Definition spec_l2_type (ty : string) : string :=
  if bool_decide (ty = "nflux" ∨ ty = "eflux") then ty else "nflux".

Section Epd.

(** Keyword values the routine only passes on. *)
Variable pyobj : Type.

Record load_args := {
  la_instrument : string;
  la_probe : string;
  la_trange : string * string;
  la_level : string;
  la_datatype : string;
  la_get_support_data : bool;
  la_varformat : pyobj;
  la_varnames : list string;
  la_downloadonly : bool;
  la_notplot : bool;
  la_time_clip : bool;
  la_no_update : bool
}.

Record epd_args := {
  trange : string * string;
  probe : string;
  datatype : string;
  level : string;
  type_ : string;
  get_support_data : bool;
  varformat : pyobj;
  varnames : list string;
  downloadonly : bool;
  notplot : bool;
  no_update : bool;
  time_clip : bool;
  nspinsinsum : pyobj;
  fullspin : bool;
  PAspec_energies : pyobj;
  PAspec_energybins : pyobj;
  Espec_LCfatol : pyobj;
  Espec_LCfptol : pyobj
}.

(** How a call of [elfin_load_epd] ends: it returns the load result, it
    returns what one of the two post-processing routines returns for the
    arguments recorded here, or it raises. *)
Inductive outcome :=
| Returns (tvars : load_result)
| L1Post (tvars : load_result) (tr : string * string) (ty : string)
         (nspins : pyobj) (unit : string)
| L2Post (tvars_input : list string) (fluxtype res : string)
         (energies energybins fatol fptol : pyobj)
| Raises (e : exn).

(** [pyspedas.elfin.load.load] *)
Variable load : load_args -> load_result.
(** [pytplot.get_data(name).y], [None] when there is no such variable. *)
Variable get_data : string -> option (list spec_float).
(** The order in which [list(s)] enumerates a set of strings. *)
Variable set_iter : gset string -> list string.

Definition normalize_type (ty : string) : string :=
  if bool_decide (ty = "cal" ∨ ty = "calibrated")
     || bool_decide (CALIBRATED_TYPE_UNITS !! ty = None)
  then "nflux" else ty.

Definition l2_fluxtype (ty : string) : string :=
  if bool_decide (ty = "nflux" ∨ ty = "eflux") then ty else "nflux".

Definition tvars_32_of (names : list string) : list string :=
  List.filter (PyStr.contains "_32") names.

Definition tvars_16_of (names : list string) : list string :=
  List.map (PyStr.remove "_32") (tvars_32_of names).

Definition tvars_other_of (names : list string) : list string :=
  set_iter (list_to_set names ∖ list_to_set (tvars_32_of names)
                              ∖ list_to_set (tvars_16_of names)).

(** The call [load(instrument='epd', ...)] the routine starts with. *)
Definition load_call (a : epd_args) : load_result :=
  load {|
    la_instrument := "epd"; la_probe := probe a; la_trange := trange a;
    la_level := level a; la_datatype := datatype a;
    la_get_support_data := get_support_data a;
    la_varformat := varformat a; la_varnames := varnames a;
    la_downloadonly := downloadonly a; la_notplot := notplot a;
    la_time_clip := time_clip a; la_no_update := no_update a |}.

Definition elfin_load_epd (a : epd_args) : outcome :=
  let tvars := load_call a in
  if notplot a || downloadonly a then Returns tvars
  else if py_not tvars then Returns tvars
  else
    let ty := normalize_type (type_ a) in
    if String.eqb (level a) "l1" then
      match CALIBRATED_TYPE_UNITS !! ty with
      | Some unit => L1Post tvars (trange a) ty (nspinsinsum a) unit
      | None => Raises (KeyError ty)
      end
    else if String.eqb (level a) "l2" then
      let ty := l2_fluxtype ty in
      let res := if fullspin a then "fs" else "hs" in
      let tvars_32 := tvars_32_of (iter_names tvars) in
      let tvars_16 := tvars_16_of (iter_names tvars) in
      let tvars_other := tvars_other_of (iter_names tvars) in
      let post tvars_input :=
        L2Post tvars_input ty res (PAspec_energies a) (PAspec_energybins a)
               (Espec_LCfatol a) (Espec_LCfptol a) in
      match tvars_32 with
      | [] => post (tvars_other ++ tvars_16)%list
      | first :: _ =>
          match get_data first with
          | None => Raises AttributeError
          | Some y =>
              if any_not_nan y then post (tvars_other ++ tvars_32)%list
              else post (tvars_other ++ tvars_16)%list
          end
      end
    else Raises (ValueError ("Unknown level: " +:+ level a)).

(** *** Properties *)

Lemma units_lookup (ty : string) :
  CALIBRATED_TYPE_UNITS !! ty =
    if decide ("raw" = ty) then Some "counts/sector"
    else if decide ("cps" = ty) then Some "counts/s"
    else if decide ("nflux" = ty) then Some "#/(s-cm$^2$-str-MeV)"
    else if decide ("eflux" = ty) then Some "keV/(s-cm$^2$-str-MeV)"
    else None.
Proof.
  unfold CALIBRATED_TYPE_UNITS.
  rewrite !lookup_insert, lookup_empty. reflexivity.
Qed.

Lemma units_lookup_None (ty : string) :
  CALIBRATED_TYPE_UNITS !! ty = None ↔ ty ∉ spec_known_types.
Proof.
  rewrite units_lookup. unfold spec_known_types.
  rewrite !not_elem_of_cons.
  destruct (decide ("raw" = ty)); [naive_solver|].
  destruct (decide ("cps" = ty)); [naive_solver|].
  destruct (decide ("nflux" = ty)); [naive_solver|].
  destruct (decide ("eflux" = ty)); [naive_solver|].
  split; [intros _ | reflexivity].
  repeat split; try congruence. apply not_elem_of_nil.
Qed.

Lemma normalize_type_spec (ty : string) : normalize_type ty = spec_type ty.
Proof.
  unfold normalize_type, spec_type.
  replace (bool_decide (ty = "cal" ∨ ty = "calibrated")
           || bool_decide (CALIBRATED_TYPE_UNITS !! ty = None))
    with (bool_decide (ty = "cal" ∨ ty = "calibrated"
                       ∨ ty ∉ spec_known_types)); [reflexivity|].
  rewrite <- bool_decide_or. apply bool_decide_ext.
  rewrite units_lookup_None. tauto.
Qed.

(** After the normalisation the table lookup cannot miss. *)
Lemma normalized_unit (ty : string) :
  ∃ unit, CALIBRATED_TYPE_UNITS !! normalize_type ty = Some unit
          ∧ (normalize_type ty, unit) ∈ spec_units.
Proof.
  assert (Hk : ∀ k, k ∈ spec_known_types →
            ∃ unit, CALIBRATED_TYPE_UNITS !! k = Some unit
                    ∧ (k, unit) ∈ spec_units).
  { intros k Hk. unfold spec_known_types in Hk.
    rewrite !elem_of_cons, elem_of_nil in Hk.
    destruct Hk as [->|[->|[->|[->|[]]]]];
      (eexists; split; [reflexivity | unfold spec_units; set_solver]). }
  rewrite normalize_type_spec. unfold spec_type.
  case_bool_decide as H.
  - apply Hk. unfold spec_known_types. set_solver.
  - apply Hk. destruct (decide (ty ∈ spec_known_types)); tauto.
Qed.

(** Unfold the routine past its two early returns. *)
Ltac epd_enter Hn Hd Ht :=
  unfold elfin_load_epd; rewrite Hn, Hd, Ht; cbn [orb].

(** C4: past the early returns, the type is normalised as the
    specification words it ('cal', 'calibrated' and anything outside the
    unit table become 'nflux'); at level 'l1' the unit handed to the L1
    post-processing is the table entry of the normalised type; at level
    'l2' a normalised type other than 'nflux' and 'eflux' becomes 'nflux'
    before the L2 post-processing is called. *)
Theorem calibrated_type_and_unit (a : epd_args) :
  notplot a = false → downloadonly a = false → py_not (load_call a) = false →
  let ty := spec_type (type_ a) in
  (level a = "l1" →
     ∃ unit, (ty, unit) ∈ spec_units ∧
       elfin_load_epd a =
         L1Post (load_call a) (trange a) ty (nspinsinsum a) unit)
  ∧ (level a = "l2" →
       elfin_load_epd a = Raises AttributeError ∨
       ∃ tvars_input,
         elfin_load_epd a =
           L2Post tvars_input (spec_l2_type ty)
                  (if fullspin a then "fs" else "hs")
                  (PAspec_energies a) (PAspec_energybins a)
                  (Espec_LCfatol a) (Espec_LCfptol a)).
Proof.
  intros Hn Hd Ht ty. subst ty. rewrite <- normalize_type_spec. split.
  - intros Hl. epd_enter Hn Hd Ht. rewrite Hl. cbn [String.eqb].
    destruct (normalized_unit (type_ a)) as (unit & -> & Hin).
    exists unit. split; [exact Hin | reflexivity].
  - intros Hl. epd_enter Hn Hd Ht. rewrite Hl.
    change (("l2" =? "l1")%string) with false.
    change (("l2" =? "l2")%string) with true. cbv iota.
    cbv zeta. fold (spec_l2_type (normalize_type (type_ a))).
    destruct (tvars_32_of _) as [|first rest] eqn:E32.
    + right. eexists. reflexivity.
    + destruct (get_data first) as [y|]; [right | left; reflexivity].
      destruct (any_not_nan y); eexists; reflexivity.
Qed.

Lemma py_not_empty (r : load_result) : py_not r = true ↔ empty_result r.
Proof.
  unfold empty_result. destruct r as [|[|x l]|[|x l]]; simpl; split;
    try (intros _; first [left; reflexivity
                         | right; eexists; split; [reflexivity|];
                           first [left; reflexivity | right; reflexivity]]);
    try reflexivity; try discriminate.
  all: intros [H|(l' & -> & [H|H])]; discriminate.
Qed.

(** C8: the routine raises [ValueError] exactly when the level is neither
    'l1' nor 'l2', the load step came back with a non-empty result and
    neither [notplot] nor [downloadonly] is set; with [notplot] or
    [downloadonly] set, or with an empty or [None] load result, it returns
    the load result as it is (so it does not raise). *)
Theorem value_error_exactly_on_unknown_level (a : epd_args) :
  ((∃ msg, elfin_load_epd a = Raises (ValueError msg)) ↔
     level a ≠ "l1" ∧ level a ≠ "l2" ∧ ¬ empty_result (load_call a)
     ∧ notplot a = false ∧ downloadonly a = false)
  ∧ (notplot a = true ∨ downloadonly a = true ∨ empty_result (load_call a) →
       elfin_load_epd a = Returns (load_call a)).
Proof.
  rewrite <- py_not_empty. unfold elfin_load_epd.
  destruct (notplot a), (downloadonly a); cbn [orb];
    try (split; [split; [intros [msg H]; discriminate H
                        | intros (_ & _ & _ & H1 & H2); discriminate]
                | reflexivity]).
  destruct (py_not (load_call a)) eqn:Ht.
  { split; [split; [intros [msg H]; discriminate H
                   | intros (_ & _ & H & _); congruence]
           | reflexivity]. }
  split; [| intros [H|[H|H]]; discriminate H].
  destruct (String.eqb_spec (level a) "l1") as [H1|H1].
  { split; [| tauto]. intros [msg H].
    destruct (normalized_unit (type_ a)) as (unit & Hu & _).
    rewrite Hu in H. discriminate H. }
  destruct (String.eqb_spec (level a) "l2") as [H2|H2].
  { split; [| tauto]. intros [msg H]. cbv zeta in H.
    destruct (tvars_32_of _); [discriminate H|].
    destruct (get_data _) as [y|]; [|discriminate H].
    destruct (any_not_nan y); discriminate H. }
  split; [intros _ | intros _; eexists; reflexivity].
  repeat split; try assumption. congruence.
Qed.

(** The iteration order of a set is some enumeration of its elements. *)
Hypothesis set_iter_perm : ∀ X : gset string, set_iter X ≡ₚ elements X.

Lemma tvars_other_NoDup (names : list string) : NoDup (tvars_other_of names).
Proof.
  unfold tvars_other_of. rewrite set_iter_perm. apply NoDup_elements.
Qed.

Lemma tvars_other_elem (names : list string) (x : string) :
  x ∈ tvars_other_of names ↔
  x ∈ names ∧ (x ∉ tvars_32_of names) ∧ (x ∉ tvars_16_of names).
Proof.
  unfold tvars_other_of. rewrite set_iter_perm, elem_of_elements.
  rewrite !elem_of_difference, !elem_of_list_to_set. tauto.
Qed.

(** C6: at level 'l2', with [t32] the loaded names that contain '_32', [t16]
    those names with '_32' removed and [other] the remaining loaded names
    (each once), the variables handed to the L2 post-processing are
    [other ++ t32] when [t32] is not empty and the data of its first
    variable holds a value that is not NaN, and [other ++ t16] when [t32]
    is empty or the data of its first variable is all NaN. *)
Theorem sector_variable_selection (a : epd_args) :
  level a = "l2" →
  notplot a = false → downloadonly a = false → ¬ empty_result (load_call a) →
  let names := iter_names (load_call a) in
  let t32 := List.filter (PyStr.contains "_32") names in
  let t16 := List.map (PyStr.remove "_32") t32 in
  let post tvars_input :=
    L2Post tvars_input (l2_fluxtype (normalize_type (type_ a)))
           (if fullspin a then "fs" else "hs")
           (PAspec_energies a) (PAspec_energybins a)
           (Espec_LCfatol a) (Espec_LCfptol a) in
  ∃ other,
    NoDup other
    ∧ (∀ x, x ∈ other ↔ x ∈ names ∧ (x ∉ t32) ∧ (x ∉ t16))
    ∧ (∀ first rest y,
         t32 = first :: rest → get_data first = Some y →
         any_not_nan y = true →
         elfin_load_epd a = post (other ++ t32)%list)
    ∧ (t32 = [] ∨
       (∃ first rest y,
          t32 = first :: rest ∧ get_data first = Some y
          ∧ any_not_nan y = false) →
       elfin_load_epd a = post (other ++ t16)%list).
Proof.
  intros Hl Hn Hd Ht names t32 t16 post.
  rewrite <- py_not_empty in Ht. apply not_true_is_false in Ht.
  exists (tvars_other_of names).
  split; [apply tvars_other_NoDup|].
  split; [apply tvars_other_elem|].
  assert (Hrun : elfin_load_epd a =
            match t32 with
            | [] => post (tvars_other_of names ++ t16)%list
            | first :: _ =>
                match get_data first with
                | None => Raises AttributeError
                | Some y =>
                    if any_not_nan y
                    then post (tvars_other_of names ++ t32)%list
                    else post (tvars_other_of names ++ t16)%list
                end
            end).
  { epd_enter Hn Hd Ht. rewrite Hl. reflexivity. }
  rewrite Hrun. split.
  - intros first rest y -> -> ->. reflexivity.
  - intros [-> | (first & rest & y & -> & -> & ->)]; reflexivity.
Qed.

(** *** Exceptions, and what the 32-sector branch passes on *)

(** X12: the table lookup never raises [KeyError], and [AttributeError] is
    raised exactly when the routine gets past its early returns at level
    'l2', some loaded name contains '_32', and [get_data] finds no variable
    under the first such name. *)
Theorem attribute_error_exactly_when (a : epd_args) :
  (elfin_load_epd a = Raises AttributeError ↔
     notplot a = false ∧ downloadonly a = false
     ∧ ¬ empty_result (load_call a) ∧ level a = "l2"
     ∧ ∃ first rest,
         tvars_32_of (iter_names (load_call a)) = first :: rest
         ∧ get_data first = None)
  ∧ ∀ key, elfin_load_epd a ≠ Raises (KeyError key).
Proof.
  rewrite <- py_not_empty. unfold elfin_load_epd.
  destruct (notplot a), (downloadonly a); cbn [orb];
    try (split; [split; [discriminate | intros (H1 & H2 & _); discriminate]
                | discriminate]).
  destruct (py_not (load_call a)) eqn:Ht.
  { split; [split; [discriminate | intros (_ & _ & H & _); congruence]
           | discriminate]. }
  destruct (String.eqb_spec (level a) "l1") as [H1|H1].
  { destruct (normalized_unit (type_ a)) as (unit & -> & _).
    split; [split; [discriminate|] | discriminate].
    intros (_ & _ & _ & H2 & _). rewrite H1 in H2. discriminate H2. }
  destruct (String.eqb_spec (level a) "l2") as [H2|H2];
    [|split; [split; [discriminate | intros (_ & _ & _ & H & _); contradiction]
             | discriminate]].
  cbv zeta. destruct (tvars_32_of _) as [|first rest].
  { split; [split; [discriminate|] | discriminate].
    intros (_ & _ & _ & _ & f & r & H & _). discriminate H. }
  destruct (get_data first) as [y|] eqn:Hd.
  - split; [split|]; [destruct (any_not_nan y); discriminate | |
                      destruct (any_not_nan y); discriminate].
    intros (_ & _ & _ & _ & f & r & [= <- <-] & H). congruence.
  - split; [split; [intros _ | reflexivity] | discriminate].
    repeat split; try congruence. exists first, rest. auto.
Qed.

(** X13: when the loaded names are all different and the 32-sector data is
    used, the L2 post-processing receives each loaded name once, except
    the names that are the '_32'-stripped form of a 32-sector name and do
    not themselves contain '_32'. *)
Theorem sector_32_input (a : epd_args) (first : string) (rest : list string)
    (y : list spec_float) :
  level a = "l2" →
  notplot a = false → downloadonly a = false → ¬ empty_result (load_call a) →
  let names := iter_names (load_call a) in
  NoDup names →
  tvars_32_of names = first :: rest → get_data first = Some y →
  any_not_nan y = true →
  ∃ tvars_input,
    elfin_load_epd a =
      L2Post tvars_input (l2_fluxtype (normalize_type (type_ a)))
             (if fullspin a then "fs" else "hs")
             (PAspec_energies a) (PAspec_energybins a)
             (Espec_LCfatol a) (Espec_LCfptol a)
    ∧ NoDup tvars_input
    ∧ ∀ x, x ∈ tvars_input ↔
           x ∈ names ∧ (PyStr.contains "_32" x = true
                        ∨ x ∉ tvars_16_of names).
Proof.
  intros Hl Hn Hd Ht names Hnd H32 Hdata Hany.
  rewrite <- py_not_empty in Ht. apply not_true_is_false in Ht.
  exists (tvars_other_of names ++ tvars_32_of names).
  assert (Hin32 : ∀ x, x ∈ tvars_32_of names ↔
                       x ∈ names ∧ PyStr.contains "_32" x = true).
  { intros x. unfold tvars_32_of.
    rewrite !list_elem_of_In, filter_In. reflexivity. }
  split; [|split].
  - epd_enter Hn Hd Ht. rewrite Hl.
    change (("l2" =? "l1")%string) with false.
    change (("l2" =? "l2")%string) with true. cbv iota zeta.
    fold names. rewrite H32, Hdata, Hany, <- H32. reflexivity.
  - apply NoDup_app. split; [apply tvars_other_NoDup|]. split.
    + intros x Hx Hx32. apply tvars_other_elem in Hx. tauto.
    + unfold tvars_32_of. apply NoDup_ListNoDup, List.NoDup_filter, NoDup_ListNoDup, Hnd.
  - intros x. rewrite elem_of_app, tvars_other_elem, Hin32. split.
    + intros [(H1 & H2 & H3)|[H1 H2]]; (split; [assumption|]);
        [right; exact H3 | left; exact H2].
    + intros [H1 [H2|H2]]; [right; split; assumption|].
      destruct (PyStr.contains "_32" x) eqn:E;
        [right; split; [assumption | reflexivity]|].
      left. repeat split; try assumption.
      intros [_ H]. discriminate H.
Qed.

End Epd.

Arguments Returns {pyobj} tvars.
Arguments L1Post {pyobj} tvars tr ty nspins unit.
Arguments L2Post {pyobj} tvars_input fluxtype res energies energybins
  fatol fptol.
Arguments Raises {pyobj} e.

(** *** A concrete session *)

Definition demo_names : list string :=
  [ "ela_pef_energies_mean"; "ela_pef_hs_Epat_nflux";
    "ela_pef_hs_Epat_nflux_32"; "ela_pef_hs_time" ].

Definition demo_load (args : load_args unit) : load_result := LList demo_names.

(** The 32-sector variable holds a NaN and the number 1. *)
Definition demo_data (name : string) : option (list spec_float) :=
  if String.eqb name "ela_pef_hs_Epat_nflux_32"
  then Some [S754_nan; S754_finite false 1 0]
  else Some [S754_nan].

Definition demo_args (lvl ty : string) : epd_args unit :=
  {| trange := ("2020-11-01", "2020-11-02"); probe := "a";
     datatype := "pef"; level := lvl; type_ := ty;
     get_support_data := false; varformat := tt; varnames := [];
     downloadonly := false; notplot := false; no_update := false;
     time_clip := true; nspinsinsum := tt; fullspin := false;
     PAspec_energies := tt; PAspec_energybins := tt;
     Espec_LCfatol := tt; Espec_LCfptol := tt |}.

(** Two orders in which a set can be enumerated. *)
Definition ascending (X : gset string) : list string := elements X.
Definition descending (X : gset string) : list string := reverse (elements X).

Lemma ascending_perm (X : gset string) : ascending X ≡ₚ elements X.
Proof. reflexivity. Qed.

Lemma descending_perm (X : gset string) : descending X ≡ₚ elements X.
Proof. apply reverse_Permutation. Qed.

Definition demo_run (set_iter : gset string -> list string)
    (lvl ty : string) : outcome unit :=
  elfin_load_epd unit demo_load demo_data set_iter (demo_args lvl ty).

Lemma demo_not_empty : ¬ empty_result (load_call unit demo_load (demo_args "l2" "raw")).
Proof. intros [H|(l & -> & [H|H])]; discriminate H. Qed.

Lemma calibrated_type_and_unit_witness :
  demo_run ascending "l1" "calibrated"
    = L1Post (LList demo_names) ("2020-11-01", "2020-11-02") "nflux" tt
        "#/(s-cm$^2$-str-MeV)"
  ∧ ∃ tvars_input,
      demo_run ascending "l2" "cps"
        = L2Post tvars_input "nflux" "hs" tt tt tt tt.
Proof.
  split.
  - destruct (proj1 (calibrated_type_and_unit unit demo_load demo_data
                       ascending (demo_args "l1" "calibrated")
                       eq_refl eq_refl eq_refl) eq_refl)
      as (u & Hu & Hrun).
    unfold demo_run. rewrite Hrun. clear Hrun.
    unfold spec_units in Hu. rewrite !elem_of_cons, elem_of_nil in Hu.
    destruct Hu as [H|[H|[H|[H|H]]]]; try contradiction;
      apply pair_equal_spec in H as [H1 H2]; subst u;
      vm_compute in H1; try discriminate H1.
    vm_compute. reflexivity.
  - destruct (proj2 (calibrated_type_and_unit unit demo_load demo_data
                       ascending (demo_args "l2" "cps")
                       eq_refl eq_refl eq_refl) eq_refl)
      as [Hrun|[tv Hrun]].
    + vm_compute in Hrun. discriminate Hrun.
    + exists tv. exact Hrun.
Defined.

Lemma sector_variable_selection_witness :
  ∃ other,
    other ≡ₚ ["ela_pef_energies_mean"; "ela_pef_hs_time"]
    ∧ demo_run ascending "l2" "raw"
      = L2Post (other ++ ["ela_pef_hs_Epat_nflux_32"]) "nflux" "hs"
          tt tt tt tt.
Proof.
  destruct (sector_variable_selection unit demo_load demo_data ascending
              ascending_perm (demo_args "l2" "raw") eq_refl eq_refl eq_refl
              demo_not_empty)
    as (other & Hnd & Hin & H32 & _).
  exists other. split.
  - apply NoDup_Permutation; [exact Hnd | |].
    + apply NoDup_cons. split; [|apply NoDup_singleton].
      rewrite list_elem_of_singleton. discriminate.
    + intros x. rewrite Hin. vm_compute iter_names.
      rewrite !elem_of_cons. vm_compute List.filter. vm_compute List.map.
      rewrite !elem_of_cons, !elem_of_nil. split.
      * intros ([->|[->|[->|[->|[]]]]] & H1 & H2).
        -- left. reflexivity.
        -- exfalso. apply H2. left. reflexivity.
        -- exfalso. apply H1. left. reflexivity.
        -- right. left. reflexivity.
      * intros [->|[->|[]]];
          (split; [tauto | split; intros [H|[]]; discriminate H]).
  - apply (H32 "ela_pef_hs_Epat_nflux_32" [] [S754_nan; S754_finite false 1 0]);
      reflexivity.
Defined.

Lemma demo_names_NoDup : NoDup demo_names.
Proof. apply (bool_decide_unpack _). vm_compute. exact I. Qed.

Lemma sector_32_input_witness :
  ∃ tvars_input,
    demo_run ascending "l2" "raw"
      = L2Post tvars_input "nflux" "hs" tt tt tt tt
    ∧ NoDup tvars_input
    ∧ "ela_pef_hs_Epat_nflux_32" ∈ tvars_input
    ∧ "ela_pef_hs_Epat_nflux" ∉ tvars_input.
Proof.
  destruct (sector_32_input unit demo_load demo_data ascending
              ascending_perm (demo_args "l2" "raw")
              "ela_pef_hs_Epat_nflux_32" []
              [S754_nan; S754_finite false 1 0]
              eq_refl eq_refl eq_refl demo_not_empty demo_names_NoDup
              eq_refl eq_refl eq_refl)
    as (tv & Hrun & Hnd & Hin).
  exists tv. split; [exact Hrun|]. split; [exact Hnd|]. split.
  - apply Hin. split; [|left; reflexivity].
    apply list_elem_of_In. right. right. left. reflexivity.
  - intros H. apply Hin in H as [_ [H|H]]; [discriminate H|].
    apply H. vm_compute. left.
Defined.

End Elfin.

(** ** MMS: [mms_get_state_data] *)

Module MmsState.

(** [os.sep] (POSIX). *)
Definition os_sep : string := "/".

(** An end of [trange]: a date string or a number of seconds.  Times are
    seconds since the epoch as integers: the model covers whole-second
    times, on which the float arithmetic of the routine is exact. *)
Inductive tval :=
| TStr (s : string)
| TNum (t : Z).

(** A JSON scalar, and Python's [str] of it. *)
Inductive json :=
| JNum (n : Z)
| JStr (s : string).

Definition py_str (v : json) : string :=
  match v with
  | JNum n => pretty n
  | JStr s => s
  end.

(** An entry of [http_json['files']]. *)
Record file_info := {
  file_name : string;
  file_size : json;
  start_date : string;
  end_date : string
}.

(** [CONFIG] *)
Record config := {
  local_data_dir : string;
  download_only : bool
}.

(** What [sdc_session.get(download_url, stream=True)] gives: the request
    fails, or a stream of [body] comes back; [breaks_at = Some n] says that
    copying the stream to a file raises after [n] bytes were written. *)
Inductive response :=
| Unreachable
| Stream (body : list Byte.byte) (breaks_at : option nat).

(** File-system writes, in the order they are made. *)
Inductive fsop :=
| OpWrite (path : string) (data : list Byte.byte)
| OpMakedirs (dir : string)
| OpCopy (src dst : string).

(** The state the routine works on: regular files with their contents,
    directories, the number of temporary files created so far, the URLs
    requested from the session, the writes made, and the calls of the two
    tplot loaders (file type and sorted file list). *)
Record world := {
  files : gmap string (list Byte.byte);
  dirs : gset string;
  temps : nat;
  requests : list string;
  ops : list fsop;
  loads : list (string * list string)
}.

Definition request (url : string) (w : world) : world :=
  {| files := files w; dirs := dirs w; temps := temps w;
     requests := requests w ++ [url]; ops := ops w; loads := loads w |}.

Definition new_temp (name : string) (w : world) : world :=
  {| files := <[name := []]> (files w); dirs := dirs w; temps := S (temps w);
     requests := requests w; ops := ops w; loads := loads w |}.

Definition write_file (path : string) (data : list Byte.byte) (w : world) : world :=
  {| files := <[path := data]> (files w); dirs := dirs w; temps := temps w;
     requests := requests w; ops := ops w ++ [OpWrite path data];
     loads := loads w |}.

Definition makedirs (dir : string) (w : world) : world :=
  {| files := files w; dirs := {[dir]} ∪ dirs w; temps := temps w;
     requests := requests w; ops := ops w ++ [OpMakedirs dir];
     loads := loads w |}.

(** [shutil.copy(src, dst)]: [dst] receives what [src] holds. *)
Definition copy (src dst : string) (w : world) : world :=
  {| files := match files w !! src with
              | Some data => <[dst := data]> (files w)
              | None => files w
              end;
     dirs := dirs w; temps := temps w; requests := requests w;
     ops := ops w ++ [OpCopy src dst]; loads := loads w |}.

Definition load_tplot (filetype : string) (fs : list string) (w : world)
  : world :=
  {| files := files w; dirs := dirs w; temps := temps w;
     requests := requests w; ops := ops w;
     loads := loads w ++ [(filetype, fs)] |}.

Inductive exn :=
| UnboundLocalError
| ConnectionError
| OSError.

(** A computation either ends normally with a value or raises; the state
    it reached is kept in both cases. *)
Inductive res (A : Type) :=
| Ok (a : A) (w : world)
| Err (e : exn) (w : world).
Arguments Ok {A} a w.
Arguments Err {A} e w.

Definition bind {A B : Type} (m : res A) (k : A -> world -> res B) : res B :=
  match m with
  | Ok a w => k a w
  | Err e w => Err e w
  end.

Definition final {A : Type} (m : res A) : world :=
  match m with Ok _ w | Err _ w => w end.

(** [sorted(out_files)]: the order of [str], character by character. *)
Definition str_le (a b : string) : Prop := Is_true (String.leb a b).

#[local] Instance str_le_dec (a b : string) : Decision (str_le a b).
Proof. unfold str_le. apply _. Defined.

Definition sorted (l : list string) : list string := merge_sort str_le l.

Definition day_seconds : Z := 60 * 60 * 24.

Lemma day_seconds_eq : day_seconds = 86400.
Proof. reflexivity. Qed.

Record window := {
  start_time : Z;
  end_time : Z;
  endtime_day : Z;
  start_time_str : string;
  end_time_str : string
}.

Section State.

(** [time_double] on a string and [time_string(t, fmt=...)] *)
Variable time_double_str : string -> Z.
Variable time_string : Z -> string -> string.

Variable cfg : config.
(** The user name [mms_login_lasp] returns with the session. *)
Variable user : option string.
(** The [files] entry of the JSON the server answers to a listing URL. *)
Variable listing : string -> list file_info.
(** The server's answer to a download URL. *)
Variable download : string -> response.
(** The name [NamedTemporaryFile] picks for the n-th temporary file. *)
Variable tmp_name : nat -> string.

Definition time_double (v : tval) : Z :=
  match v with
  | TStr s => time_double_str s
  | TNum t => t
  end.

(** Lines 29-45: the times and the two query dates. *)
Definition query_window (trange : tval * tval) : window :=
  let start_time := time_double (fst trange) - day_seconds in
  let end_time := time_double (snd trange) in
  let endtime_day :=
    match snd trange with
    | TStr _ =>
        time_double_str (time_string (time_double (snd trange)) "%Y-%m-%d")
    | TNum t => time_double_str (time_string t "%Y-%m-%d")
    end in
  let add_day := if end_time >? endtime_day then day_seconds else 0 in
  {| start_time := start_time;
     end_time := end_time;
     endtime_day := endtime_day;
     start_time_str := time_string start_time "%Y-%m-%d";
     end_time_str := time_string (end_time + add_day) "%Y-%m-%d" |}.

Definition dates_for_query (level : string) (win : window) : string :=
  if String.eqb level "def"
  then "&start_date=" +:+ start_time_str win
       +:+ "&end_date=" +:+ end_time_str win
  else "".

Definition info_url (probe product dates : string) : string :=
  match user with
  | None =>
      "https://lasp.colorado.edu/mms/sdc/public/files/api/v1/file_info/ancillary?sc_id=mms"
      +:+ probe +:+ "&product=" +:+ product +:+ dates
  | Some _ =>
      "https://lasp.colorado.edu/mms/sdc/sitl/files/api/v1/file_info/ancillary?sc_id=mms"
      +:+ probe +:+ "&product=" +:+ product +:+ dates
  end.

Definition download_url (f : file_info) : string :=
  match user with
  | None =>
      "https://lasp.colorado.edu/mms/sdc/public/files/api/v1/download/ancillary?file="
      +:+ file_name f
  | Some _ =>
      "https://lasp.colorado.edu/mms/sdc/sitl/files/api/v1/download/ancillary?file="
      +:+ file_name f
  end.

(** Lines 86-94: the loop over the listing of predicted data, with its
    [continue]s and its [break]. *)
Fixpoint first_in_interval (win : window) (fs : list file_info)
  : list file_info :=
  match fs with
  | [] => []
  | file :: rest =>
      if time_double_str (start_date file) >? endtime_day win
      then first_in_interval win rest
      else if start_time win >? time_double_str (end_date file)
      then first_in_interval win rest
      else [file]
  end.

(** Lines 85-96 *)
Definition files_in_interval (level : string) (win : window)
    (fs : list file_info) : list file_info :=
  if negb (String.eqb level "def") then first_in_interval win fs else fs.

Definition out_path (out_dir : string) (f : file_info) : string :=
  PyStr.join os_sep [out_dir; file_name f].

(** Line 101: a file stands at the path and the decimal text of its size
    is the text of the listed size.  (Only regular files are looked up: a
    directory standing at the path is not modelled.) *)
Definition is_cached (w : world) (out_dir : string) (f : file_info) : bool :=
  match files w !! out_path out_dir f with
  | Some data =>
      String.eqb (pretty (Z.of_nat (length data))) (py_str (file_size f))
  | None => false
  end.

(** Lines 98-130: one turn of the loop over [files_in_interval]. *)
Definition fetch_file (out_dir : string) (f : file_info)
    (out_files : list string) (w : world) : res (list string) :=
  let out_file := out_path out_dir f in
  if is_cached w out_dir f then Ok (out_files ++ [out_file]) w
  else
    let w := request (download_url f) w in
    match download (download_url f) with
    | Unreachable => Err ConnectionError w
    | Stream body breaks_at =>
        let tmp := tmp_name (temps w) in
        let w := new_temp tmp w in
        match breaks_at with
        | Some n => Err OSError (write_file tmp (take n body) w)
        | None =>
            let w := write_file tmp body w in
            let w := if bool_decide (out_dir ∈ dirs w) then w
                     else makedirs out_dir w in
            let w := copy tmp out_file w in
            Ok (out_files ++ [out_file]) w
        end
    end.

Fixpoint fetch_files (out_dir : string) (fs : list file_info)
    (out_files : list string) (w : world) : res (list string) :=
  match fs with
  | [] => Ok out_files w
  | f :: rest =>
      bind (fetch_file out_dir f out_files w) (fetch_files out_dir rest)
  end.

(** Lines 59-138: the body of the loop over the file types. *)
Definition get_filetype (probe level : string) (datatypes : list string)
    (no_download : bool) (win : window) (filetype : string) (w : world)
  : res unit :=
  let product := level +:+ filetype in
  let url := info_url probe product (dates_for_query level win) in
  if no_download then Err UnboundLocalError w
  else
    let w := request url w in
    let out_dir :=
      PyStr.join os_sep
        [local_data_dir cfg; "ancillary"; "mms" +:+ probe; level +:+ filetype] in
    bind (fetch_files out_dir (files_in_interval level win (listing url)) [] w)
      (fun out_files w =>
         if download_only cfg then Ok tt w
         else Ok tt (load_tplot filetype (sorted out_files) w)).

Fixpoint get_filetypes (probe level : string) (datatypes : list string)
    (no_download : bool) (win : window) (filetypes : list string) (w : world)
  : res unit :=
  match filetypes with
  | [] => Ok tt w
  | filetype :: rest =>
      bind (get_filetype probe level datatypes no_download win filetype w)
        (fun _ => get_filetypes probe level datatypes no_download win rest)
  end.

Definition filetypes_of (datatypes : list string) : list string :=
  ((if bool_decide ("pos" ∈ datatypes) || bool_decide ("vel" ∈ datatypes)
    then ["eph"] else [])
   ++ (if bool_decide ("spinras" ∈ datatypes)
          || bool_decide ("spindec" ∈ datatypes)
       then ["att"] else []))%list.

Definition mms_get_state_data (probe : string) (trange : tval * tval)
    (datatypes : list string) (level : string) (no_download : bool)
    (w : world) : res unit :=
  get_filetypes probe level datatypes no_download (query_window trange)
    (filetypes_of datatypes) w.

(** The specification's wording of the selection for predicted data: the
    files that start no later than the end-of-range day and end no earlier
    than the start time. *)
Definition overlaps (win : window) (f : file_info) : bool :=
  (time_double_str (start_date f) <=? endtime_day win)
  && (start_time win <=? time_double_str (end_date f)).

Definition spec_files_in_interval (win : window) (fs : list file_info)
  : list file_info :=
  List.filter (overlaps win) fs.

(** *** The query window *)

(** The text of the calendar day with a given number (days since the
    epoch), and the two facts about the time library that the window
    rests on: ['%Y-%m-%d'] prints the day a time falls on, and the days
    are 86400 seconds long. *)
Variable ymd : Z -> string.
Hypothesis time_string_day :
  ∀ t, time_string t "%Y-%m-%d" = ymd (t / day_seconds).

Lemma endtime_day_eq (trange : tval * tval) :
  endtime_day (query_window trange) =
    time_double_str (ymd (time_double (snd trange) / day_seconds)).
Proof.
  unfold query_window. cbn [endtime_day].
  destruct (snd trange) as [s|t]; cbn [time_double];
    rewrite time_string_day; reflexivity.
Qed.

(** C5: the query starts on the calendar day of [trange[0]] minus one day
    and ends on the calendar day of [trange[1]], one day later exactly when
    [trange[1]] is past midnight, which is when its time exceeds the time
    of its date. *)
Theorem query_window_dates (trange : tval * tval) :
  let t0 := time_double (fst trange) in
  let t1 := time_double (snd trange) in
  let win := query_window trange in
  time_double_str (ymd (t1 / day_seconds)) = day_seconds * (t1 / day_seconds) →
  start_time win = t0 - 24 * 60 * 60
  ∧ start_time_str win = ymd (t0 / day_seconds - 1)
  ∧ (end_time win > endtime_day win ↔ 0 < t1 mod day_seconds)
  ∧ end_time_str win =
      ymd (t1 / day_seconds + (if 0 <? t1 mod day_seconds then 1 else 0))
  ∧ dates_for_query "def" win =
      "&start_date=" +:+ ymd (t0 / day_seconds - 1) +:+ "&end_date="
      +:+ ymd (t1 / day_seconds + (if 0 <? t1 mod day_seconds then 1 else 0)).
Proof.
  intros t0 t1 win Hday.
  assert (Hend : endtime_day win = day_seconds * (t1 / day_seconds)).
  { subst win. rewrite endtime_day_eq. exact Hday. }
  assert (Hstart : start_time win = t0 - day_seconds) by reflexivity.
  assert (Hend_time : end_time win = t1) by reflexivity.
  clearbody t0 t1.
  assert (Hs : start_time_str win = ymd (t0 / day_seconds - 1)).
  { change (start_time_str win)
      with (time_string (start_time win) "%Y-%m-%d").
    rewrite Hstart, time_string_day. f_equal. rewrite day_seconds_eq. div_lia. }
  assert (He : end_time_str win =
            ymd (t1 / day_seconds
                 + (if 0 <? t1 mod day_seconds then 1 else 0))).
  { assert (Hadd : end_time_str win =
              time_string
                (end_time win
                 + (if end_time win >? endtime_day win
                    then day_seconds else 0))
                "%Y-%m-%d") by reflexivity.
    rewrite Hadd, Hend_time, Hend, time_string_day. f_equal.
    rewrite !day_seconds_eq.
    destruct (Z.gtb_spec t1 (86400 * (t1 / 86400)));
      destruct (Z.ltb_spec 0 (t1 mod 86400)); div_lia. }
  split; [rewrite Hstart, day_seconds_eq; lia|].
  split; [exact Hs|].
  split.
  { rewrite Hend, Hend_time, !day_seconds_eq. div_lia. }
  split; [exact He|].
  unfold dates_for_query. cbn [String.eqb Ascii.eqb Bool.eqb].
  rewrite Hs, He. reflexivity.
Qed.

(** *** The selection from the listing *)

Lemma overlaps_guards (win : window) (f : file_info) :
  overlaps win f =
    negb (time_double_str (start_date f) >? endtime_day win)
    && negb (start_time win >? time_double_str (end_date f)).
Proof.
  unfold overlaps. rewrite !Z.gtb_ltb, !Z.leb_antisym. reflexivity.
Qed.

Lemma first_in_interval_filter (win : window) (fs : list file_info) :
  first_in_interval win fs = take 1 (spec_files_in_interval win fs).
Proof.
  unfold spec_files_in_interval.
  induction fs as [|f fs IH]; [reflexivity|].
  cbn [first_in_interval List.filter]. rewrite overlaps_guards.
  destruct (time_double_str (start_date f) >? endtime_day win);
    [exact IH|].
  destruct (start_time win >? time_double_str (end_date f));
    [exact IH | reflexivity].
Qed.

(** C3, as the routine has it: for a level other than 'def' the files
    taken from the listing are the first file, in listing order, that
    starts no later than the end-of-range day and ends no earlier than the
    start time, and no other file; no file is taken when none overlaps. *)
Theorem predicted_first_overlapping (level : string) (win : window)
    (fs : list file_info) :
  level ≠ "def" →
  files_in_interval level win fs = take 1 (spec_files_in_interval win fs).
Proof.
  intros Hl. unfold files_in_interval.
  destruct (String.eqb_spec level "def") as [H|_]; [contradiction|].
  apply first_in_interval_filter.
Qed.

(** *** The cache check and the download *)

Lemma is_cached_spec (w : world) (out_dir : string) (f : file_info) :
  is_cached w out_dir f = true ↔
  ∃ data, files w !! out_path out_dir f = Some data
          ∧ pretty (Z.of_nat (length data)) = py_str (file_size f).
Proof.
  unfold is_cached. destruct (files w !! out_path out_dir f) as [data|].
  - rewrite String.eqb_eq. split.
    + intros H. exists data. split; [reflexivity | exact H].
    + intros (data' & [= <-] & H). exact H.
  - split; [discriminate | intros (data & H & _); discriminate H].
Qed.

(** For a size listed as a number the comparison of the two texts is the
    comparison of the two sizes. *)
Lemma is_cached_size (w : world) (out_dir : string) (f : file_info)
    (n : Z) (data : list Byte.byte) :
  file_size f = JNum n → files w !! out_path out_dir f = Some data →
  is_cached w out_dir f = true ↔ Z.of_nat (length data) = n.
Proof.
  intros Hn Hd. unfold is_cached. rewrite Hd, Hn, String.eqb_eq.
  cbn [py_str]. split; [apply (inj pretty) | intros ->; reflexivity].
Qed.

Lemma fetch_files_app (out_dir : string) (pre post : list file_info)
    (out : list string) (w : world) :
  fetch_files out_dir (pre ++ post) out w =
    bind (fetch_files out_dir pre out w) (fetch_files out_dir post).
Proof.
  revert out w. induction pre as [|f pre IH]; intros out w; [reflexivity|].
  cbn [app fetch_files].
  destruct (fetch_file out_dir f out w) as [out1 w1|e w1]; cbn [bind];
    [apply IH | reflexivity].
Qed.

(** C1: when the loop over the selected files reaches a file (after the
    files [pre] before it), a file standing at the output path whose size
    reads as the listed [file_size] makes the turn append the path and
    leave everything else as it is, so no request is sent; otherwise, and
    only then, the download URL of the file is requested. *)
Theorem cached_file_not_downloaded (out_dir : string)
    (pre post : list file_info) (f : file_info)
    (out out1 : list string) (w w1 : world) :
  fetch_files out_dir pre out w = Ok out1 w1 →
  let out_file := out_path out_dir f in
  (is_cached w1 out_dir f = true ↔
     ∃ data, files w1 !! out_file = Some data
             ∧ pretty (Z.of_nat (length data)) = py_str (file_size f))
  ∧ (∀ n data, file_size f = JNum n → files w1 !! out_file = Some data →
       is_cached w1 out_dir f = true ↔ Z.of_nat (length data) = n)
  ∧ (is_cached w1 out_dir f = true →
       fetch_file out_dir f out1 w1 = Ok (out1 ++ [out_file]) w1
       ∧ fetch_files out_dir (pre ++ f :: post) out w =
           fetch_files out_dir post (out1 ++ [out_file]) w1)
  ∧ (is_cached w1 out_dir f = false →
       requests (final (fetch_file out_dir f out1 w1)) =
         requests w1 ++ [download_url f]
       ∧ (∀ out2 w2, fetch_file out_dir f out1 w1 = Ok out2 w2 →
            out2 = out1 ++ [out_file])
       ∧ fetch_files out_dir (pre ++ f :: post) out w =
           bind (fetch_file out_dir f out1 w1) (fetch_files out_dir post)).
Proof.
  intros Hpre out_file.
  assert (Hrun : fetch_files out_dir (pre ++ f :: post) out w =
            bind (fetch_file out_dir f out1 w1) (fetch_files out_dir post)).
  { rewrite fetch_files_app, Hpre. reflexivity. }
  split; [apply is_cached_spec|].
  split; [intros n data; apply is_cached_size|].
  split.
  - intros Hc.
    assert (Hf : fetch_file out_dir f out1 w1 = Ok (out1 ++ [out_file]) w1).
    { unfold fetch_file. rewrite Hc. reflexivity. }
    split; [exact Hf|]. rewrite Hrun, Hf. reflexivity.
  - intros Hc. split; [|split; [|exact Hrun]].
    + unfold fetch_file. rewrite Hc.
      destruct (download (download_url f)) as [|body [n|]];
        try reflexivity.
      cbv zeta. destruct (bool_decide _); reflexivity.
    + intros out2 w2. unfold fetch_file. rewrite Hc.
      destruct (download (download_url f)) as [|body [n|]];
        [discriminate | discriminate | intros [= <- _]; reflexivity].
Qed.

(** C10: a payload goes to the cache through a temporary file.  If writing
    the stream to the temporary file fails, the turn raises and the cache
    path holds what it held (the only write made is the partial one to the
    temporary file); if it succeeds, the temporary file holds the whole
    payload before the copy to the cache path is made, and the cache path
    then holds the whole payload. *)
Theorem download_through_temporary_file (out_dir : string) (f : file_info)
    (out : list string) (w : world) (body : list Byte.byte)
    (breaks_at : option nat) :
  is_cached w out_dir f = false →
  download (download_url f) = Stream body breaks_at →
  let out_file := out_path out_dir f in
  let tmp := tmp_name (temps w) in
  tmp ≠ out_file →
  match breaks_at with
  | Some n =>
      ∃ w', fetch_file out_dir f out w = Err OSError w'
            ∧ files w' !! out_file = files w !! out_file
            ∧ ops w' = ops w ++ [OpWrite tmp (take n body)]
  | None =>
      ∃ w' mk, fetch_file out_dir f out w = Ok (out ++ [out_file]) w'
               ∧ files w' !! tmp = Some body
               ∧ files w' !! out_file = Some body
               ∧ ops w' = ops w ++ OpWrite tmp body :: mk ++ [OpCopy tmp out_file]
               ∧ (mk = [] ∨ mk = [OpMakedirs out_dir])
  end.
Proof.
  intros Hc Hd out_file tmp Hne. unfold fetch_file. rewrite Hc, Hd.
  fold out_file. change (temps (request (download_url f) w)) with (temps w).
  fold tmp. destruct breaks_at as [n|].
  - eexists. split; [reflexivity|]. split; [|reflexivity].
    cbn [files write_file new_temp request].
    rewrite !lookup_insert_ne by exact Hne. reflexivity.
  - set (w2 := write_file tmp body (new_temp tmp (request (download_url f) w))).
    assert (Htmp : ∀ w3, files w3 = files w2 → files w3 !! tmp = Some body).
    { intros w3 ->. cbn [files w2 write_file]. apply lookup_insert_eq. }
    destruct (bool_decide (out_dir ∈ dirs w2)) eqn:Hdir.
    + exists (copy tmp out_file w2), []. split; [reflexivity|].
      unfold copy. cbn [files ops]. rewrite (Htmp w2 eq_refl).
      split; [rewrite lookup_insert_ne by congruence; apply (Htmp w2 eq_refl)|].
      split; [apply lookup_insert_eq|].
      split; [|left; reflexivity].
      cbn [ops w2 write_file new_temp request]. rewrite <- app_assoc.
      reflexivity.
    + exists (copy tmp out_file (makedirs out_dir w2)), [OpMakedirs out_dir].
      split; [reflexivity|].
      unfold copy. cbn [files ops makedirs]. rewrite (Htmp w2 eq_refl).
      split; [rewrite lookup_insert_ne by congruence; apply (Htmp w2 eq_refl)|].
      split; [apply lookup_insert_eq|].
      split; [|right; reflexivity].
      cbn [ops w2 write_file new_temp request]. rewrite <- !app_assoc.
      reflexivity.
Qed.

(** *** The loop as a whole *)

Lemma fetch_file_output (out_dir : string) (f : file_info)
    (out out' : list string) (w w' : world) :
  fetch_file out_dir f out w = Ok out' w' →
  out' = out ++ [out_path out_dir f].
Proof.
  unfold fetch_file. destruct (is_cached w out_dir f); [intros [= <- _]; reflexivity|].
  destruct (download (download_url f)) as [|body [n|]]; try discriminate.
  intros [= <- _]. reflexivity.
Qed.

Lemma fetch_file_requests (out_dir : string) (f : file_info)
    (out : list string) (w : world) :
  requests (final (fetch_file out_dir f out w)) =
    requests w ++ (if is_cached w out_dir f then [] else [download_url f]).
Proof.
  unfold fetch_file. destruct (is_cached w out_dir f);
    [symmetry; apply app_nil_r|].
  destruct (download (download_url f)) as [|body [n|]]; try reflexivity.
  cbv zeta. destruct (bool_decide _); reflexivity.
Qed.

Lemma fetch_files_paths (out_dir : string) (fs : list file_info)
    (out out' : list string) (w w' : world) :
  fetch_files out_dir fs out w = Ok out' w' →
  out' = out ++ List.map (out_path out_dir) fs.
Proof.
  revert out w. induction fs as [|f fs IH]; intros out w.
  - intros [= <- _]. symmetry. apply app_nil_r.
  - cbn [fetch_files List.map].
    destruct (fetch_file out_dir f out w) as [out1 w1|e w1] eqn:Hf;
      cbn [bind]; [|discriminate].
    intros H. apply IH in H. apply fetch_file_output in Hf. subst.
    rewrite <- app_assoc. reflexivity.
Qed.

(** X1: when the loop over the selected files ends normally, the output
    list is the list it started with followed by the output path of every
    selected file, cached or downloaded, in the order of the listing. *)
Theorem fetch_files_output (out_dir : string) (fs : list file_info)
    (out out' : list string) (w w' : world) :
  fetch_files out_dir fs out w = Ok out' w' →
  out' = out ++ List.map (out_path out_dir) fs.
Proof. apply fetch_files_paths. Qed.

(** X2: whatever happens in the loop, the requests it sends are download
    URLs of selected files, each at most once per listing entry and in
    the order of the listing; requests made before are kept. *)
Theorem fetch_files_requests (out_dir : string) (fs : list file_info)
    (out : list string) (w : world) :
  ∃ sent,
    requests (final (fetch_files out_dir fs out w)) = requests w ++ sent
    ∧ sublist sent (List.map download_url fs).
Proof.
  revert out w. induction fs as [|f fs IH]; intros out w.
  - exists []. split; [symmetry; apply app_nil_r | constructor].
  - cbn [fetch_files List.map].
    pose proof (fetch_file_requests out_dir f out w) as Hr.
    destruct (fetch_file out_dir f out w) as [out1 w1|e w1]; cbn [bind final] in *.
    + destruct (IH out1 w1) as (sent & Hs & Hsub). rewrite Hs, Hr.
      destruct (is_cached w out_dir f).
      * exists sent. rewrite app_nil_r. split; [reflexivity|].
        apply sublist_cons, Hsub.
      * exists (download_url f :: sent). rewrite <- app_assoc.
        split; [reflexivity|]. apply sublist_skip, Hsub.
    + rewrite Hr. destruct (is_cached w out_dir f).
      * exists []. split; [reflexivity | apply sublist_nil_l].
      * exists [download_url f]. split; [reflexivity|].
        apply sublist_skip, sublist_nil_l.
Qed.

(** *** The cache after a download *)

Lemma app_inv_head (a b c : string) : a +:+ b = a +:+ c → b = c.
Proof.
  induction a as [|x a IH]; [intros H; exact H|].
  rewrite !PyStr.app_cons. intros [= H]. apply IH, H.
Qed.

Lemma out_path_inj (out_dir : string) (f g : file_info) :
  out_path out_dir f = out_path out_dir g → file_name f = file_name g.
Proof.
  unfold out_path. cbn [PyStr.join]. intros H.
  apply app_inv_head, app_inv_head in H. exact H.
Qed.

Lemma download_url_name (f g : file_info) :
  file_name f = file_name g → download_url f = download_url g.
Proof. unfold download_url. intros ->. reflexivity. Qed.

(** The files of the state after a download that went through. *)
Lemma fetch_file_downloaded (out_dir : string) (f : file_info)
    (out : list string) (w : world) (body : list Byte.byte) :
  is_cached w out_dir f = false →
  download (download_url f) = Stream body None →
  ∃ w', fetch_file out_dir f out w = Ok (out ++ [out_path out_dir f]) w'
        ∧ files w' = <[out_path out_dir f := body]>
                       (<[tmp_name (temps w) := body]>
                          (<[tmp_name (temps w) := []]> (files w))).
Proof.
  intros Hc Hd. unfold fetch_file. rewrite Hc, Hd. cbv zeta.
  eexists. split; [reflexivity|].
  destruct (bool_decide _); cbn [files copy makedirs write_file new_temp
                                 request temps];
    rewrite lookup_insert_eq; reflexivity.
Qed.

(** X3: a file whose listed size differs from the length of what the
    server sends for it is not recognised afterwards: right after a
    download that went through, the cache check on it still fails, so
    every later visit downloads it again. *)
Theorem size_mismatch_downloads_again (out_dir : string) (f : file_info)
    (out out' : list string) (w w' : world) (body : list Byte.byte) :
  is_cached w out_dir f = false →
  download (download_url f) = Stream body None →
  pretty (Z.of_nat (length body)) ≠ py_str (file_size f) →
  fetch_file out_dir f out w = Ok out' w' →
  is_cached w' out_dir f = false
  ∧ requests (final (fetch_file out_dir f out' w')) =
      requests w ++ [download_url f; download_url f].
Proof.
  intros Hc Hd Hsize Hrun.
  destruct (fetch_file_downloaded out_dir f out w body Hc Hd)
    as (w1 & Hrun1 & Hfiles).
  rewrite Hrun in Hrun1. injection Hrun1 as -> ->.
  assert (Hc' : is_cached w1 out_dir f = false).
  { unfold is_cached. rewrite Hfiles, lookup_insert_eq.
    apply String.eqb_neq, Hsize. }
  split; [exact Hc'|].
  rewrite fetch_file_requests, Hc'.
  pose proof (fetch_file_requests out_dir f out w) as Hr.
  rewrite Hrun, Hc in Hr. cbn [final] in Hr. rewrite Hr, <- app_assoc.
  reflexivity.
Qed.

(** The server sends each selected file whole, in the listed size. *)
Definition served (fs : list file_info) : Prop :=
  ∀ f, f ∈ fs →
    ∃ body, download (download_url f) = Stream body None
            ∧ pretty (Z.of_nat (length body)) = py_str (file_size f).

(** No temporary file takes the cache path of a selected file. *)
Definition temps_apart (out_dir : string) (fs : list file_info) : Prop :=
  ∀ n f, f ∈ fs → tmp_name n ≠ out_path out_dir f.

Lemma fetch_file_caches (out_dir : string) (fs : list file_info)
    (f : file_info) (out : list string) (w : world) :
  served fs → temps_apart out_dir fs → f ∈ fs →
  ∃ w', fetch_file out_dir f out w = Ok (out ++ [out_path out_dir f]) w'
        ∧ is_cached w' out_dir f = true
        ∧ ∀ g, g ∈ fs → is_cached w out_dir g = true →
               is_cached w' out_dir g = true.
Proof.
  intros Hserved Htmp Hf.
  destruct (is_cached w out_dir f) eqn:Hc.
  { exists w. unfold fetch_file. rewrite Hc. auto. }
  destruct (Hserved f Hf) as (body & Hd & Hsize).
  destruct (fetch_file_downloaded out_dir f out w body Hc Hd)
    as (w' & Hrun & Hfiles).
  exists w'. split; [exact Hrun|].
  assert (Hhit : ∀ g, g ∈ fs → out_path out_dir g = out_path out_dir f →
                      is_cached w' out_dir g = true).
  { intros g Hg Hp. unfold is_cached. rewrite Hfiles, Hp, lookup_insert_eq.
    apply String.eqb_eq.
    destruct (Hserved g Hg) as (body' & Hd' & Hsize').
    rewrite (download_url_name g f (out_path_inj out_dir g f Hp)), Hd in Hd'.
    injection Hd' as <-. exact Hsize'. }
  split; [apply Hhit; [exact Hf | reflexivity]|].
  intros g Hg Hcg.
  destruct (decide (out_path out_dir g = out_path out_dir f)) as [Hp|Hp];
    [apply Hhit; assumption|].
  unfold is_cached in *. rewrite Hfiles.
  rewrite lookup_insert_ne by congruence.
  rewrite !lookup_insert_ne by (apply Htmp, Hg). exact Hcg.
Qed.

Lemma fetch_files_all_cached (out_dir : string) (fs : list file_info)
    (out : list string) (w : world) :
  (∀ f, f ∈ fs → is_cached w out_dir f = true) →
  fetch_files out_dir fs out w = Ok (out ++ List.map (out_path out_dir) fs) w.
Proof.
  revert out. induction fs as [|f fs IH]; intros out Hall.
  - cbn [fetch_files List.map]. rewrite app_nil_r. reflexivity.
  - cbn [fetch_files List.map]. unfold fetch_file at 1.
    rewrite (Hall f) by left. cbn [bind].
    rewrite IH by (intros g Hg; apply Hall; right; exact Hg).
    rewrite <- app_assoc. reflexivity.
Qed.

Lemma fetch_files_caches (out_dir : string) (fs part : list file_info)
    (out : list string) (w : world) :
  served fs → temps_apart out_dir fs → (∀ f, f ∈ part → f ∈ fs) →
  ∃ w', fetch_files out_dir part out w
          = Ok (out ++ List.map (out_path out_dir) part) w'
        ∧ (∀ g, g ∈ part → is_cached w' out_dir g = true)
        ∧ (∀ g, g ∈ fs → is_cached w out_dir g = true →
                is_cached w' out_dir g = true).
Proof.
  intros Hserved Htmp. revert out w.
  induction part as [|f part IH]; intros out w Hsub.
  - exists w. cbn [fetch_files List.map]. rewrite app_nil_r.
    split; [reflexivity|]. split; [intros g Hg; inversion Hg | auto].
  - destruct (fetch_file_caches out_dir fs f out w Hserved Htmp)
      as (w1 & Hrun1 & Hf1 & Hkeep1); [apply Hsub; left|].
    destruct (IH (out ++ [out_path out_dir f]) w1) as (w2 & Hrun2 & Hall2 & Hkeep2);
      [intros g Hg; apply Hsub; right; exact Hg|].
    exists w2. cbn [fetch_files List.map]. rewrite Hrun1. cbn [bind].
    rewrite Hrun2, <- app_assoc. split; [reflexivity|]. split.
    + intros g Hg. apply elem_of_cons in Hg as [->|Hg];
        [apply Hkeep2; [apply Hsub; left | exact Hf1] | apply Hall2, Hg].
    + intros g Hg Hc. apply Hkeep2; [exact Hg|]. apply Hkeep1; assumption.
Qed.

(** X4: when the server sends every selected file whole and in its listed
    size, and no temporary file takes a cache path, the loop ends normally
    from any state, and a second pass over the same files finds them all
    in the cache: it returns the same paths and changes nothing (no
    request, no write). *)
Theorem second_pass_downloads_nothing (out_dir : string)
    (fs : list file_info) (out : list string) (w : world) :
  served fs → temps_apart out_dir fs →
  ∃ w', fetch_files out_dir fs out w
          = Ok (out ++ List.map (out_path out_dir) fs) w'
        ∧ ∀ out2, fetch_files out_dir fs out2 w'
                  = Ok (out2 ++ List.map (out_path out_dir) fs) w'.
Proof.
  intros Hserved Htmp.
  destruct (fetch_files_caches out_dir fs fs out w Hserved Htmp)
    as (w' & Hrun & Hall & _); [auto|].
  exists w'. split; [exact Hrun|].
  intros out2. apply fetch_files_all_cached, Hall.
Qed.

(** *** The routine as a whole *)

Lemma filetypes_none (datatypes : list string) :
  filetypes_of datatypes = [] ↔
  ¬ ("pos" ∈ datatypes ∨ "vel" ∈ datatypes
     ∨ "spinras" ∈ datatypes ∨ "spindec" ∈ datatypes).
Proof.
  unfold filetypes_of.
  destruct (bool_decide_reflect ("pos" ∈ datatypes));
    destruct (bool_decide_reflect ("vel" ∈ datatypes));
    destruct (bool_decide_reflect ("spinras" ∈ datatypes));
    destruct (bool_decide_reflect ("spindec" ∈ datatypes));
    cbn [orb app]; split; try discriminate; try tauto; reflexivity.
Qed.

(** X5: with [no_download] set the routine never reads the cache: it
    raises [UnboundLocalError] (the session was not created) before any
    request, write or loader call as soon as one of 'pos', 'vel',
    'spinras', 'spindec' is asked for, and returns without doing anything
    otherwise. *)
Theorem no_download_raises (probe : string) (trange : tval * tval)
    (datatypes : list string) (level : string) (w : world) :
  let wanted := "pos" ∈ datatypes ∨ "vel" ∈ datatypes
                ∨ "spinras" ∈ datatypes ∨ "spindec" ∈ datatypes in
  (wanted →
     mms_get_state_data probe trange datatypes level true w
     = Err UnboundLocalError w)
  ∧ (¬ wanted →
     mms_get_state_data probe trange datatypes level true w = Ok tt w).
Proof.
  intros wanted. unfold mms_get_state_data.
  pose proof (filetypes_none datatypes) as Hnone. fold wanted in Hnone.
  destruct (filetypes_of datatypes) as [|filetype rest].
  - split; [intros H; exfalso; apply Hnone; [reflexivity | exact H]
           | reflexivity].
  - split; [reflexivity|].
    intros H. apply Hnone in H. discriminate H.
Qed.

Lemma fetch_file_loads (out_dir : string) (f : file_info)
    (out : list string) (w : world) :
  loads (final (fetch_file out_dir f out w)) = loads w.
Proof.
  unfold fetch_file. destruct (is_cached w out_dir f); [reflexivity|].
  destruct (download (download_url f)) as [|body [n|]]; try reflexivity.
  cbv zeta. destruct (bool_decide _); reflexivity.
Qed.

Lemma fetch_files_loads (out_dir : string) (fs : list file_info)
    (out : list string) (w : world) :
  loads (final (fetch_files out_dir fs out w)) = loads w.
Proof.
  revert out w. induction fs as [|f fs IH]; intros out w; [reflexivity|].
  cbn [fetch_files]. pose proof (fetch_file_loads out_dir f out w) as Hf.
  destruct (fetch_file out_dir f out w) as [out1 w1|e w1];
    cbn [bind final] in *; [rewrite IH|]; exact Hf.
Qed.

(** X6: with [CONFIG['download_only']] set, no tplot loader is called,
    whatever the server answers and however the run ends. *)
Theorem download_only_never_loads (probe : string) (trange : tval * tval)
    (datatypes : list string) (level : string) (no_download : bool)
    (w : world) :
  download_only cfg = true →
  loads (final (mms_get_state_data probe trange datatypes level
                  no_download w)) = loads w.
Proof.
  intros Hdo. unfold mms_get_state_data.
  generalize (filetypes_of datatypes). intros filetypes. revert w.
  induction filetypes as [|filetype rest IH]; intros w; [reflexivity|].
  cbn [get_filetypes]. unfold get_filetype.
  destruct no_download; [reflexivity|]. cbv zeta. rewrite Hdo.
  match goal with
  | |- context [fetch_files ?d ?fs [] ?w0] =>
      pose proof (fetch_files_loads d fs [] w0) as Hl;
      destruct (fetch_files d fs [] w0) as [out1 w1|e w1]
  end; cbn [bind final] in *; [rewrite IH|]; exact Hl.
Qed.

#[local] Instance str_le_total : Total str_le.
Proof.
  intros a b. unfold str_le.
  destruct (String.leb_total a b) as [H|H]; rewrite H; [left | right];
    exact I.
Qed.

(** X7: when the turn for a file type ends normally and [download_only] is
    not set, the loader of that file type is called once, with the output
    paths of the selected files in ascending order (an empty list when no
    file was selected). *)
Theorem loader_gets_sorted_files (probe level : string)
    (datatypes : list string) (win : window) (filetype : string)
    (w w' : world) :
  download_only cfg = false →
  get_filetype probe level datatypes false win filetype w = Ok tt w' →
  let url := info_url probe (level +:+ filetype) (dates_for_query level win) in
  let out_dir :=
    PyStr.join os_sep
      [local_data_dir cfg; "ancillary"; "mms" +:+ probe; level +:+ filetype] in
  ∃ paths,
    loads w' = loads w ++ [(filetype, paths)]
    ∧ Sorted str_le paths
    ∧ paths ≡ₚ List.map (out_path out_dir)
                 (files_in_interval level win (listing url)).
Proof.
  intros Hdo. unfold get_filetype. cbv zeta. rewrite Hdo.
  match goal with
  | |- context [fetch_files ?d ?fs [] ?w0] =>
      pose proof (fetch_files_loads d fs [] w0) as Hl;
      destruct (fetch_files d fs [] w0) as [out1 w1|e w1] eqn:Hrun
  end; cbn [bind final] in *; [|discriminate].
  intros [= <-]. apply fetch_files_paths in Hrun. cbn [app] in Hrun.
  subst out1. eexists. cbn [loads load_tplot]. rewrite Hl.
  split; [reflexivity|]. split.
  - apply Sorted_merge_sort. exact str_le_total.
  - apply merge_sort_Permutation.
Qed.

End State.

(** *** A concrete session *)

Definition demo_cfg : config :=
  {| local_data_dir := "pydata"; download_only := false |}.

Definition demo_tmp_name (n : nat) : string := "/tmp/tmp" +:+ pretty n.

Definition demo_body : list Byte.byte := list_byte_of_string "ephemeris".

Definition pred_a : file_info :=
  {| file_name := "MMS1_PREDEPH_2015287_2015302.V00"; file_size := JNum 9;
     start_date := "2015-10-14"; end_date := "2015-10-29" |}.

Definition pred_b : file_info :=
  {| file_name := "MMS1_PREDEPH_2015288_2015303.V00"; file_size := JNum 9;
     start_date := "2015-10-15"; end_date := "2015-10-30" |}.

Definition pred_old : file_info :=
  {| file_name := "MMS1_PREDEPH_2015250_2015265.V00"; file_size := JNum 9;
     start_date := "2015-09-07"; end_date := "2015-09-22" |}.

Definition demo_listing : list file_info := [pred_old; pred_a; pred_b].

Definition demo_trange : tval * tval :=
  (TStr "2015-10-16", TStr "2015-10-17/12:00:00").

Definition demo_window : window :=
  query_window Cal.time_double_str Cal.time_string demo_trange.

Definition demo_out_dir : string := "pydata/ancillary/mms1/predeph".

(** [pred_a] is in the cache with the listed size, [pred_b] with another
    size. *)
Definition demo_world : world :=
  {| files := <[out_path demo_out_dir pred_a := demo_body]>
              (<[out_path demo_out_dir pred_b := []]> ∅);
     dirs := {[demo_out_dir]}; temps := 0; requests := []; ops := [];
     loads := [] |}.

Definition demo_download (breaks_at : option nat) (url : string) : response :=
  Stream demo_body breaks_at.

(** The whole routine on predicted ephemeris data: one listing request,
    the first overlapping file found in the cache, one loader call. *)
Example state_data_run :
  let run :=
    mms_get_state_data Cal.time_double_str Cal.time_string demo_cfg None
      (fun url => demo_listing) (demo_download None) demo_tmp_name
      "1" demo_trange ["pos"; "vel"] "pred" false demo_world in
  requests (final run)
    = ["https://lasp.colorado.edu/mms/sdc/public/files/api/v1/file_info/ancillary?sc_id=mms1&product=predeph"]
  ∧ loads (final run) = [("eph", [out_path demo_out_dir pred_a])]
  ∧ ops (final run) = [].
Proof. vm_compute. repeat split; reflexivity. Qed.

(** The calendar of [Cal] meets the two assumptions on the time library
    ([Cal.time_string_ymd], [Cal.time_double_ymd]). *)
Lemma query_window_dates_witness :
  start_time_str demo_window = "2015-10-15"
  ∧ end_time_str demo_window = "2015-10-18"
  ∧ dates_for_query "def" demo_window
    = "&start_date=2015-10-15&end_date=2015-10-18".
Proof.
  destruct (query_window_dates Cal.time_double_str Cal.time_string Cal.ymd
              Cal.time_string_ymd demo_trange)
    as (_ & Hs & _ & He & Hq); [vm_compute; reflexivity|].
  fold demo_window in Hs, He, Hq. rewrite Hs, He, Hq.
  repeat split; vm_compute; reflexivity.
Defined.

(** C3 as the specification states it fails on a listing with two
    overlapping files: the routine takes the first one only. *)
Lemma predicted_selection_counterexample :
  files_in_interval Cal.time_double_str "pred" demo_window demo_listing
    = [pred_a]
  ∧ spec_files_in_interval Cal.time_double_str demo_window demo_listing
    = [pred_a; pred_b]
  ∧ files_in_interval Cal.time_double_str "pred" demo_window demo_listing
    ≠ spec_files_in_interval Cal.time_double_str demo_window demo_listing.
Proof.
  assert (H1 : files_in_interval Cal.time_double_str "pred" demo_window
                 demo_listing = [pred_a]) by (vm_compute; reflexivity).
  assert (H2 : spec_files_in_interval Cal.time_double_str demo_window
                 demo_listing = [pred_a; pred_b]) by (vm_compute; reflexivity).
  split; [exact H1|]. split; [exact H2|]. rewrite H1, H2. discriminate.
Qed.

Lemma predicted_first_overlapping_witness :
  files_in_interval Cal.time_double_str "pred" demo_window demo_listing
  = take 1 (spec_files_in_interval Cal.time_double_str demo_window
              demo_listing).
Proof.
  apply (predicted_first_overlapping Cal.time_double_str "pred").
  discriminate.
Defined.

Lemma cached_file_not_downloaded_witness :
  fetch_files None (demo_download None) demo_tmp_name demo_out_dir
    [pred_a] [] demo_world
  = Ok [out_path demo_out_dir pred_a] demo_world
  ∧ requests (final (fetch_file None (demo_download None) demo_tmp_name
                       demo_out_dir pred_b [] demo_world))
    = [download_url None pred_b].
Proof.
  destruct (cached_file_not_downloaded None (demo_download None)
              demo_tmp_name demo_out_dir [] [] pred_a [] [] demo_world
              demo_world eq_refl) as (_ & _ & Hhit & _).
  destruct (cached_file_not_downloaded None (demo_download None)
              demo_tmp_name demo_out_dir [] [] pred_b [] [] demo_world
              demo_world eq_refl) as (_ & _ & _ & Hmiss).
  split.
  - apply Hhit. vm_compute. reflexivity.
  - apply Hmiss. vm_compute. reflexivity.
Defined.

Lemma download_through_temporary_file_witness :
  (∃ w', fetch_file None (demo_download (Some 4%nat)) demo_tmp_name
           demo_out_dir pred_b [] demo_world = Err OSError w'
         ∧ files w' !! out_path demo_out_dir pred_b = Some []
         ∧ ops w' = [OpWrite "/tmp/tmp0" (take 4 demo_body)])
  ∧ (∃ w', fetch_file None (demo_download None) demo_tmp_name
             demo_out_dir pred_b [] demo_world
           = Ok [out_path demo_out_dir pred_b] w'
           ∧ files w' !! out_path demo_out_dir pred_b = Some demo_body
           ∧ ops w' = [OpWrite "/tmp/tmp0" demo_body;
                       OpCopy "/tmp/tmp0" (out_path demo_out_dir pred_b)]).
Proof.
  split.
  - destruct (download_through_temporary_file None
                (demo_download (Some 4%nat)) demo_tmp_name demo_out_dir
                pred_b [] demo_world demo_body (Some 4%nat))
      as (w' & Hr & Hf & Ho);
      [vm_compute; reflexivity | reflexivity | vm_compute; discriminate|].
    exists w'. split; [exact Hr|]. split; [rewrite Hf|rewrite Ho];
      vm_compute; reflexivity.
  - destruct (download_through_temporary_file None (demo_download None)
                demo_tmp_name demo_out_dir pred_b [] demo_world demo_body
                None)
      as (w' & mk & Hr & _ & Hf & Ho & Hmk);
      [vm_compute; reflexivity | reflexivity | vm_compute; discriminate|].
    exists w'. split; [exact Hr|]. split; [exact Hf|].
    assert (Hw : w' = copy "/tmp/tmp0" (out_path demo_out_dir pred_b)
                   (write_file "/tmp/tmp0" demo_body
                      (new_temp "/tmp/tmp0"
                         (request (download_url None pred_b) demo_world)))).
    { assert (Hrun : fetch_file None (demo_download None) demo_tmp_name
                       demo_out_dir pred_b [] demo_world
                     = Ok [out_path demo_out_dir pred_b]
                         (copy "/tmp/tmp0" (out_path demo_out_dir pred_b)
                            (write_file "/tmp/tmp0" demo_body
                               (new_temp "/tmp/tmp0"
                                  (request (download_url None pred_b)
                                     demo_world)))))
        by (vm_compute; reflexivity).
      rewrite Hrun in Hr. injection Hr as <-. reflexivity. }
    rewrite Hw. reflexivity.
Defined.

(** *** The loop and the routine on the concrete session *)

Definition pred_short : file_info :=
  {| file_name := "MMS1_PREDEPH_2015289_2015304.V00"; file_size := JNum 10;
     start_date := "2015-10-16"; end_date := "2015-10-31" |}.

Definition demo_fetch (fs : list file_info) (out : list string) (w : world)
  : res (list string) :=
  fetch_files None (demo_download None) demo_tmp_name demo_out_dir fs out w.

Lemma fetch_files_output_witness :
  ∃ w', demo_fetch [pred_a; pred_b] [] demo_world
        = Ok [out_path demo_out_dir pred_a; out_path demo_out_dir pred_b] w'.
Proof.
  assert (H : ∃ out' w', demo_fetch [pred_a; pred_b] [] demo_world
                         = Ok out' w')
    by (vm_compute; do 2 eexists; reflexivity).
  destruct H as (out' & w' & H). exists w'. rewrite H. f_equal.
  apply (fetch_files_output None (demo_download None) demo_tmp_name
           demo_out_dir [pred_a; pred_b] [] out' demo_world w' H).
Defined.

Lemma size_mismatch_downloads_again_witness :
  ∃ out' w',
    fetch_file None (demo_download None) demo_tmp_name demo_out_dir
      pred_short [] demo_world = Ok out' w'
    ∧ is_cached w' demo_out_dir pred_short = false.
Proof.
  assert (H : ∃ out' w',
            fetch_file None (demo_download None) demo_tmp_name demo_out_dir
              pred_short [] demo_world = Ok out' w')
    by (vm_compute; do 2 eexists; reflexivity).
  destruct H as (out' & w' & H). exists out', w'. split; [exact H|].
  apply (size_mismatch_downloads_again None (demo_download None)
           demo_tmp_name demo_out_dir pred_short [] out' demo_world w'
           demo_body);
    [vm_compute; reflexivity | reflexivity | vm_compute; discriminate
    | exact H].
Defined.

Lemma demo_served : served None (demo_download None) [pred_a; pred_b].
Proof.
  intros f Hf. exists demo_body. split; [reflexivity|].
  apply elem_of_cons in Hf as [->|Hf];
    [|apply list_elem_of_singleton in Hf as ->]; vm_compute; reflexivity.
Qed.

Lemma demo_temps_apart :
  temps_apart demo_tmp_name demo_out_dir [pred_a; pred_b].
Proof.
  intros n f _ H. apply (f_equal (String.get 0)) in H.
  lazy in H. discriminate H.
Qed.

Lemma second_pass_downloads_nothing_witness :
  ∃ w', demo_fetch [pred_a; pred_b] [] demo_world
        = Ok ([] ++ List.map (out_path demo_out_dir) [pred_a; pred_b]) w'
        ∧ ∀ out2, demo_fetch [pred_a; pred_b] out2 w'
                  = Ok (out2 ++ List.map (out_path demo_out_dir)
                                  [pred_a; pred_b]) w'.
Proof.
  exact (second_pass_downloads_nothing None (demo_download None)
           demo_tmp_name demo_out_dir [pred_a; pred_b] [] demo_world
           demo_served demo_temps_apart).
Defined.

Definition demo_cfg_download_only : config :=
  {| local_data_dir := "pydata"; download_only := true |}.

Lemma download_only_never_loads_witness :
  loads (final (mms_get_state_data Cal.time_double_str Cal.time_string
                  demo_cfg_download_only None (fun url => demo_listing)
                  (demo_download None) demo_tmp_name
                  "1" demo_trange ["pos"; "vel"] "pred" false demo_world))
  = [].
Proof.
  exact (download_only_never_loads Cal.time_double_str Cal.time_string
           demo_cfg_download_only None (fun url => demo_listing)
           (demo_download None) demo_tmp_name
           "1" demo_trange ["pos"; "vel"] "pred" false demo_world eq_refl).
Defined.

Lemma loader_gets_sorted_files_witness :
  ∃ w' paths,
    get_filetype Cal.time_double_str demo_cfg None
      (fun url => [pred_b; pred_a])
      (demo_download None) demo_tmp_name "1" "def" ["pos"] false
      demo_window "eph" demo_world = Ok tt w'
    ∧ loads w' = [("eph", paths)]
    ∧ Sorted str_le paths.
Proof.
  assert (H : ∃ w',
            get_filetype Cal.time_double_str demo_cfg None
      (fun url => [pred_b; pred_a])
              (demo_download None) demo_tmp_name "1" "def" ["pos"] false
              demo_window "eph" demo_world = Ok tt w')
    by (vm_compute; eexists; reflexivity).
  destruct H as (w' & H).
  destruct (loader_gets_sorted_files Cal.time_double_str demo_cfg None
              (fun url => [pred_b; pred_a]) (demo_download None)
              demo_tmp_name "1" "def" ["pos"] demo_window "eph" demo_world
              w' eq_refl H) as (paths & Hl & Hs & _).
  exists w', paths. split; [exact H|]. split; [exact Hl | exact Hs].
Defined.

End MmsState.

(** ** MMS: [mms_get_local_files] *)

Module MmsLocal.

(** *** The regular expression

    The pattern the routine compiles is a sequence of literal texts and of
    greedy repetitions of one character class, some of them in a group.
    [re.escape(local_dir)] is the literal [local_dir].

    The pieces stand for the pattern that [re] compiles on two conditions,
    [plain] and [ascii_text] below: the theorems about what the lookup
    accepts assume them, and the concrete requests meet them.  Line 44
    puts the arguments into the pattern unescaped: they are literal text
    only when they hold none of the characters that [re] reads as syntax
    (with 'fg.' for the instrument the compiled pattern also accepts
    'fgm'; with 'a+b' it does not accept 'a+b').  And the text matched is
    ASCII: there one character of the model is one character of the Python
    string, and [\d] accepts the digits 0 to 9 only. *)

Inductive capture :=
| NoGroup              (* no group *)
| GroupAll             (* the group holds the repetition: [(x+)] *)
| GroupEach.           (* the repetition holds the group: [(x)?] *)

Inductive piece :=
| Lit (text : string)
| Rep (cls : ascii -> bool) (lo : nat) (hi : option nat) (cap : capture).

Fixpoint string_take (n : nat) (s : string) : string :=
  match n, s with
  | S k, String c r => String c (string_take k r)
  | _, _ => ""
  end.

Fixpoint string_drop (n : nat) (s : string) : string :=
  match n, s with
  | S k, String _ r => string_drop k r
  | _, _ => s
  end.

Fixpoint string_last (s : string) : option ascii :=
  match s with
  | EmptyString => None
  | String c EmptyString => Some c
  | String _ r => string_last r
  end.

(** How many characters at the start of [s] are in the class. *)
Fixpoint run (cls : ascii -> bool) (s : string) : nat :=
  match s with
  | String c r => if cls c then S (run cls r) else O
  | EmptyString => O
  end.

(** What a group reports after matching the text [u]. *)
Definition captured (cap : capture) (u : string) : list (option string) :=
  match cap with
  | NoGroup => []
  | GroupAll => [Some u]
  | GroupEach =>
      [match string_last u with
       | Some c => Some (String c "")
       | None => None
       end]
  end.

Definition groups := list (option string).

(** A repetition that holds [k] characters lets the rest of the pattern
    ([next]) try what follows them, and gives one character back when the
    rest fails, down to [lo] characters. *)
Fixpoint give_back (next : string -> option groups) (cap : capture)
    (lo : nat) (s : string) (k : nat) : option groups :=
  if Nat.ltb k lo then None
  else
    match next (string_drop k s) with
    | Some gs => Some (captured cap (string_take k s) ++ gs)
    | None =>
        match k with
        | O => None
        | S k' => give_back next cap lo s k'
        end
    end.

(** [re.match]: the pattern is tried at the start of the text and need not
    reach its end; a repetition first takes as many characters as it can.
    The result is [m.groups()]. *)
Fixpoint re_match (ps : list piece) (s : string) : option groups :=
  match ps with
  | [] => Some []
  | Lit text :: rest =>
      if String.prefix text s
      then re_match rest (string_drop (String.length text) s)
      else None
  | Rep cls lo hi cap :: rest =>
      let longest :=
        match hi with
        | Some h => Nat.min h (run cls s)
        | None => run cls s
        end in
      give_back (re_match rest) cap lo s longest
  end.

(** What it means for a text to match a pattern from its start, with the
    groups it reports. *)
Fixpoint string_forall (cls : ascii -> bool) (s : string) : bool :=
  match s with
  | EmptyString => true
  | String c r => cls c && string_forall cls r
  end.

Inductive matches : list piece -> string -> groups -> Prop :=
| matches_end (s : string) : matches [] s []
| matches_lit (text : string) (rest : list piece) (s : string) (gs : groups) :
    matches rest s gs -> matches (Lit text :: rest) (text +:+ s) gs
| matches_rep (cls : ascii -> bool) (lo : nat) (hi : option nat)
    (cap : capture) (rest : list piece) (u s : string) (gs : groups) :
    string_forall cls u = true ->
    (lo <= String.length u)%nat ->
    (forall h, hi = Some h -> (String.length u <= h)%nat) ->
    matches rest s gs ->
    matches (Rep cls lo hi cap :: rest) (u +:+ s) (captured cap u ++ gs).

Definition newline : ascii := ascii_of_nat 10.

(** [.] on ASCII text: any character but the newline. *)
Definition dot (c : ascii) : bool := negb (Ascii.eqb c newline).

(** [[0-9]], and [\d] on ASCII text. *)
Definition digit (c : ascii) : bool :=
  let n := nat_of_ascii c in Nat.leb 48 n && Nat.leb n 57.

Definition underscore (c : ascii) : bool := Ascii.eqb c "_".

(** The characters that [re] reads as syntax outside a character class. *)
Definition special (c : ascii) : bool :=
  existsb (Ascii.eqb c) (list_ascii_of_string ".^$*+?{}[]\|()").

Definition ascii_char (c : ascii) : bool := Nat.ltb (nat_of_ascii c) 128.

(** ASCII text. *)
Definition ascii_text (s : string) : bool := string_forall ascii_char s.

(** ASCII text that is literal text when it is put into a pattern. *)
Definition plain (s : string) : bool :=
  string_forall (fun c => ascii_char c && negb (special c)) s.

(** Line 44, for [plain] arguments. *)
Definition file_name_pattern (probe instrument data_rate level : string)
  : list piece :=
  [ Lit ("mms" +:+ probe +:+ "_" +:+ instrument +:+ "_" +:+ data_rate
         +:+ "_" +:+ level);
    Rep underscore 0 (Some 1%nat) GroupEach;
    Rep dot 0 None NoGroup;
    Lit "_";
    Rep digit 8 (Some 14%nat) GroupAll;
    Lit "_v";
    Rep digit 1 None GroupAll;
    Rep dot 1 (Some 1%nat) NoGroup;
    Rep digit 1 None GroupAll;
    Rep dot 1 (Some 1%nat) NoGroup;
    Rep digit 1 None GroupAll;
    Rep dot 1 (Some 1%nat) NoGroup;
    Lit "cdf" ].

(** An entry of [files_out]. *)
Record file_rec := {
  file_name : string;
  timetag : string;
  full_name : string;
  file_size : string
}.

(** [this_file in files_out]: [files_out] holds dictionaries and
    [this_file] is a string, and a string is equal to no dictionary. *)
Definition str_eq_dict (s : string) (d : file_rec) : bool := false.

Definition str_in_dicts (s : string) (l : list file_rec) : bool :=
  existsb (str_eq_dict s) l.

(** [rrule(DAILY, dtstart=start, until=until)] *)
Definition daily (start until : Z) : list Z :=
  if until <? start then []
  else List.map (fun k => start + 86400 * Z.of_nat k)
                (seq 0 (S (Z.to_nat ((until - start) / 86400)))).

(** [os.path.basename] *)
Fixpoint basename_from (sep : ascii) (acc s : string) : string :=
  match s with
  | EmptyString => acc
  | String c r =>
      if Ascii.eqb c sep then basename_from sep r r
      else basename_from sep acc r
  end.

Definition basename (sep : ascii) (s : string) : string :=
  basename_from sep s s.

(** The pattern of line 44 spelled out on a path [p] under the directory
    [dir]: [date] is the text of the date group. *)
Definition path_matches (dir sep probe instrument data_rate level : string)
    (p date : string) : Prop :=
  ∃ u mid a x1 b x2 c x3 tail,
    p = dir +:+ sep
        +:+ ("mms" +:+ probe +:+ "_" +:+ instrument +:+ "_" +:+ data_rate
             +:+ "_" +:+ level)
        +:+ u +:+ mid +:+ "_" +:+ date +:+ "_v"
        +:+ a +:+ x1 +:+ b +:+ x2 +:+ c +:+ x3 +:+ "cdf" +:+ tail
    ∧ (u = "" ∨ u = "_")
    ∧ string_forall dot mid = true
    ∧ string_forall digit date = true
    ∧ (8 <= String.length date <= 14)%nat
    ∧ string_forall digit a = true ∧ (1 <= String.length a)%nat
    ∧ string_forall digit b = true ∧ (1 <= String.length b)%nat
    ∧ string_forall digit c = true ∧ (1 <= String.length c)%nat
    ∧ string_forall dot x1 = true ∧ String.length x1 = 1%nat
    ∧ string_forall dot x2 = true ∧ String.length x2 = 1%nat
    ∧ string_forall dot x3 = true ∧ String.length x3 = 1%nat.

Section Local.

(** [dateutil.parser.parse] ([None]: it raises) and [strftime]; times are
    seconds. *)
Variable parse : string -> option Z.
Variable strftime : string -> Z -> string.
(** [os.name == 'nt'] *)
Variable nt : bool.
(** [CONFIG['local_data_dir']] *)
Variable local_data_dir : string.
(** [os.walk(top)], as the list of its [(root, files)]. *)
Variable os_walk : string -> list (string * list string).
(** [mms_files_in_interval] *)
Variable mms_files_in_interval :
  list file_rec -> string * string -> list file_rec.

Definition os_sep : string := if nt then "\" else "/".

(** Lines 54-57 *)
Definition local_dir (probe instrument data_rate level_and_dtype : string)
    (date : Z) : string :=
  if String.eqb data_rate "brst" then
    PyStr.join os_sep
      [local_data_dir; "mms" +:+ probe; instrument; data_rate;
       level_and_dtype; strftime "%Y" date; strftime "%m" date;
       strftime "%d" date]
  else
    PyStr.join os_sep
      [local_data_dir; "mms" +:+ probe; instrument; data_rate;
       level_and_dtype; strftime "%Y" date; strftime "%m" date].

(** Lines 59-64.  On Windows the text joined is
    [re.escape(local_dir) + '\\'], ['\\'], [file_name]: an escaped
    backslash, which matches one backslash; elsewhere it is
    [re.escape(local_dir)], ['/'], [file_name]. *)
Definition full_path (dir : string) (name : list piece) : list piece :=
  Lit dir :: Lit os_sep :: name.

(** Lines 66-75: one file of the walk. *)
Definition scan_file (regex : list piece) (start until : Z)
    (root file : string) (files_out : list file_rec)
  : option (list file_rec) :=
  let this_file := PyStr.join os_sep [root; file] in
  match re_match regex this_file with
  | Some groups =>
      match groups !! 1%nat with
      | Some (Some text) =>
          this_time ← parse text;
          if (start <=? this_time) && (this_time <=? until) then
            if negb (str_in_dicts this_file files_out) then
              Some (files_out ++
                      [{| file_name := file; timetag := "";
                          full_name := this_file; file_size := "" |}])
            else Some files_out
          else Some files_out
      | _ => None
      end
  | None => Some files_out
  end.

Fixpoint scan_files (regex : list piece) (start until : Z)
    (root : string) (files : list string) (files_out : list file_rec)
  : option (list file_rec) :=
  match files with
  | [] => Some files_out
  | file :: rest =>
      files_out ← scan_file regex start until root file files_out;
      scan_files regex start until root rest files_out
  end.

Fixpoint scan_walk (regex : list piece) (start until : Z)
    (walk : list (string * list string)) (files_out : list file_rec)
  : option (list file_rec) :=
  match walk with
  | [] => Some files_out
  | (root, files) :: rest =>
      files_out ← scan_files regex start until root files files_out;
      scan_walk regex start until rest files_out
  end.

(** Lines 53-75: the loop over the days. *)
Fixpoint scan_days (probe instrument data_rate level level_and_dtype : string)
    (start until : Z) (days : list Z) (files_out : list file_rec)
  : option (list file_rec) :=
  match days with
  | [] => Some files_out
  | date :: rest =>
      let dir := local_dir probe instrument data_rate level_and_dtype date in
      let regex :=
        full_path dir (file_name_pattern probe instrument data_rate level) in
      files_out ← scan_walk regex start until (os_walk local_data_dir)
                    files_out;
      scan_days probe instrument data_rate level level_and_dtype
        start until rest files_out
  end.

(** Lines 48-51 *)
Definition level_and_dtype (level : string) (datatype : option string)
  : string :=
  match datatype with
  | None => level
  | Some d => if String.eqb d "" then level
              else PyStr.join os_sep [level; d]
  end.

Definition mms_get_local_files (probe instrument data_rate level : string)
    (datatype : option string) (trange : string * string)
  : option (list string) :=
  t0 ← parse (fst trange);
  start ← parse (strftime "%Y-%m-%d" t0);
  t1 ← parse (snd trange);
  let until := t1 - 1 in
  files_out ← scan_days probe instrument data_rate level
                (level_and_dtype level datatype)
                start until (daily start until) [];
  let files_in_interval := mms_files_in_interval files_out trange in
  let file_names := List.map file_name files_in_interval in
  Some (List.map full_name
          (List.filter (fun f => bool_decide (file_name f ∈ file_names))
                       files_out)).

(** Every path that the loops join from the walk is ASCII text. *)
Definition ascii_walk (walk : list (string * list string)) : bool :=
  forallb (fun rf =>
             forallb (fun file => ascii_text (PyStr.join os_sep [rf.1; file]))
                     rf.2)
          walk.

(** *** The matcher is sound *)

Lemma take_drop (k : nat) (s : string) :
  string_take k s +:+ string_drop k s = s.
Proof.
  revert s. induction k as [|k IH]; intros [|c s]; try reflexivity.
  cbn [string_take string_drop]. rewrite PyStr.app_cons, IH. reflexivity.
Qed.

Lemma take_run (cls : ascii -> bool) (k : nat) (s : string) :
  (k <= run cls s)%nat →
  string_forall cls (string_take k s) = true
  ∧ String.length (string_take k s) = k.
Proof.
  revert s. induction k as [|k IH]; intros s Hk.
  - destruct s; split; reflexivity.
  - destruct s as [|c s]; cbn [run] in Hk; [lia|].
    destruct (cls c) eqn:Hc; [|lia].
    destruct (IH s ltac:(lia)) as [H1 H2].
    cbn [string_take string_forall String.length]. rewrite Hc, H1, H2.
    split; reflexivity.
Qed.

Lemma prefix_drop (text s : string) :
  String.prefix text s = true →
  s = text +:+ string_drop (String.length text) s.
Proof.
  intros H. apply PyStr.prefix_app in H as [post ->]. f_equal.
  induction text as [|c text IH]; [destruct post; reflexivity|].
  rewrite PyStr.app_cons. cbn [String.length string_drop]. exact IH.
Qed.

Lemma give_back_sound (next : string -> option groups) (rest : list piece)
    (cls : ascii -> bool) (lo : nat) (hi : option nat) (cap : capture)
    (s : string) (k : nat) (gs : groups) :
  (∀ s' gs', next s' = Some gs' → matches rest s' gs') →
  (k <= run cls s)%nat → (∀ h, hi = Some h → (k <= h)%nat) →
  give_back next cap lo s k = Some gs →
  matches (Rep cls lo hi cap :: rest) s gs.
Proof.
  intros Hnext.
  assert (Hhere : ∀ j gs', (j <= run cls s)%nat →
            (∀ h, hi = Some h → (j <= h)%nat) → (lo <= j)%nat →
            next (string_drop j s) = Some gs' →
            matches (Rep cls lo hi cap :: rest) s
                    (captured cap (string_take j s) ++ gs')).
  { intros j gs' Hj Hh Hlo Hn. rewrite <- (take_drop j s) at 1.
    destruct (take_run cls j s Hj) as [Hall Hlen].
    apply matches_rep;
      [exact Hall | lia | intros h Hh'; rewrite Hlen; exact (Hh h Hh')
      | apply Hnext, Hn]. }
  revert gs. induction k as [|k IH]; intros gs Hk Hhi; cbn [give_back].
  - destruct (Nat.ltb_spec 0 lo) as [|Hlo]; [discriminate|].
    destruct (next (string_drop 0 s)) as [gs'|] eqn:Hn; [|discriminate].
    intros [= <-]. exact (Hhere 0%nat gs' Hk Hhi Hlo Hn).
  - destruct (Nat.ltb_spec (S k) lo) as [|Hlo]; [discriminate|].
    destruct (next (string_drop (S k) s)) as [gs'|] eqn:Hn.
    + intros [= <-]. exact (Hhere (S k) gs' Hk Hhi Hlo Hn).
    + apply IH; [lia | intros h Hh; specialize (Hhi h Hh); lia].
Qed.

Theorem re_match_sound (ps : list piece) (s : string) (gs : groups) :
  re_match ps s = Some gs → matches ps s gs.
Proof.
  revert s gs. induction ps as [|[text|cls lo hi cap] rest IH]; intros s gs.
  - intros [= <-]. constructor.
  - cbn [re_match]. destruct (String.prefix text s) eqn:Hp; [|discriminate].
    intros H. rewrite (prefix_drop _ _ Hp). constructor. apply IH, H.
  - cbn [re_match]. apply give_back_sound; [exact IH | |].
    + destruct hi as [h|]; lia.
    + intros h ->. lia.
Qed.

Lemma underscore_option (u : string) :
  string_forall underscore u = true → (String.length u <= 1)%nat →
  u = "" ∨ u = "_".
Proof.
  destruct u as [|c [|d u]]; cbn [string_forall String.length];
    [left; reflexivity | | lia].
  intros H _. right. apply andb_prop in H as [H _].
  apply Ascii.eqb_eq in H. subst c. reflexivity.
Qed.

Ltac invert_matches :=
  repeat match goal with
         | H : matches (_ :: _) _ _ |- _ => inversion H; subst; clear H
         | H : matches [] _ _ |- _ => inversion H; subst; clear H
         end.

(** What a match of the compiled pattern says about the path. *)
Lemma full_path_matches (dir probe instrument data_rate level : string)
    (p : string) (gs : groups) :
  matches (full_path dir (file_name_pattern probe instrument data_rate level))
          p gs →
  ∃ date, gs !! 1%nat = Some (Some date)
          ∧ path_matches dir os_sep probe instrument data_rate level p date.
Proof.
  unfold full_path, file_name_pattern. intros H. invert_matches.
  match goal with
  | |- ∃ date, (captured _ ?u ++ captured _ ?mid ++ captured _ ?d ++ _) !! _
               = _ ∧ _ => exists d
  end.
  split; [reflexivity|].
  unfold path_matches. do 9 eexists. split; [reflexivity|].
  repeat match goal with
         | H : ∀ h, Some ?n = Some h → _ |- _ => specialize (H n eq_refl)
         end.
  split; [apply underscore_option; assumption|].
  repeat (split; [first [assumption | lia]|]). first [assumption | lia].
Qed.

(** *** What the scan collects *)

Lemma str_in_dicts_false (s : string) (l : list file_rec) :
  str_in_dicts s l = false.
Proof. induction l as [|r l IH]; [reflexivity | exact IH]. Qed.

Section Scan.

Variable P : file_rec -> Prop.
Variable regex_of : Z -> list piece.
Variables start until : Z.

(** [P] holds of every record a match within the range can produce. *)
Definition accepts (day : Z) (root file : string) : Prop :=
  ∀ gs date t,
    re_match (regex_of day) (PyStr.join os_sep [root; file]) = Some gs →
    gs !! 1%nat = Some (Some date) → parse date = Some t →
    start <= t <= until →
    P {| file_name := file; timetag := "";
         full_name := PyStr.join os_sep [root; file]; file_size := "" |}.

Lemma scan_file_Forall (day : Z) (root file : string)
    (out out' : list file_rec) :
  accepts day root file → Forall P out →
  scan_file (regex_of day) start until root file out = Some out' →
  Forall P out'.
Proof.
  intros Hadm Hout. unfold scan_file.
  destruct (re_match (regex_of day) _) as [gs|] eqn:Hm;
    [|intros [= <-]; exact Hout].
  destruct (gs !! 1%nat) as [[date|]|] eqn:Hg; try discriminate.
  destruct (parse date) as [t|] eqn:Hp; [|discriminate]. cbn [mbind option_bind].
  destruct (Z.leb_spec start t); cbn [andb];
    [|intros [= <-]; exact Hout].
  destruct (Z.leb_spec t until); [|intros [= <-]; exact Hout].
  rewrite str_in_dicts_false. cbn [negb]. intros [= <-].
  apply Forall_app. split; [exact Hout|].
  apply Forall_cons. split; [|apply Forall_nil_2].
  apply (Hadm gs date t); [exact Hm | exact Hg | exact Hp | lia].
Qed.

Lemma scan_files_Forall (day : Z) (root : string) (files : list string)
    (out out' : list file_rec) :
  (∀ file, file ∈ files → accepts day root file) → Forall P out →
  scan_files (regex_of day) start until root files out = Some out' →
  Forall P out'.
Proof.
  revert out. induction files as [|file files IH]; intros out Hadm Hout.
  - intros [= <-]. exact Hout.
  - cbn [scan_files].
    destruct (scan_file (regex_of day) start until root file out)
      as [out1|] eqn:H1; [|discriminate].
    cbn [mbind option_bind]. apply IH.
    + intros f Hf. apply Hadm. right. exact Hf.
    + apply (scan_file_Forall day root file out); [|exact Hout|exact H1].
      apply Hadm. left.
Qed.

Lemma scan_walk_Forall (day : Z) (walk : list (string * list string))
    (out out' : list file_rec) :
  (∀ root files file, (root, files) ∈ walk → file ∈ files →
     accepts day root file) →
  Forall P out →
  scan_walk (regex_of day) start until walk out = Some out' →
  Forall P out'.
Proof.
  revert out. induction walk as [|[root files] walk IH]; intros out Hadm Hout.
  - intros [= <-]. exact Hout.
  - cbn [scan_walk].
    destruct (scan_files (regex_of day) start until root files out)
      as [out1|] eqn:H1; [|discriminate].
    cbn [mbind option_bind]. apply IH.
    + intros r fs f Hr Hf. apply (Hadm r fs f); [right; exact Hr | exact Hf].
    + apply (scan_files_Forall day root files out); [|exact Hout|exact H1].
      intros f Hf. apply (Hadm root files f); [left | exact Hf].
Qed.

End Scan.

Lemma scan_days_Forall (P : file_rec -> Prop)
    (probe instrument data_rate level lad : string) (start until : Z)
    (days : list Z) (out out' : list file_rec) :
  (∀ day root files file,
     day ∈ days → (root, files) ∈ os_walk local_data_dir → file ∈ files →
     accepts P
       (fun day => full_path (local_dir probe instrument data_rate lad day)
                     (file_name_pattern probe instrument data_rate level))
       start until day root file) →
  Forall P out →
  scan_days probe instrument data_rate level lad start until days out
    = Some out' →
  Forall P out'.
Proof.
  revert out. induction days as [|day days IH]; intros out Hadm Hout.
  - intros [= <-]. exact Hout.
  - cbn [scan_days]. cbv zeta.
    destruct (scan_walk _ start until (os_walk local_data_dir) out)
      as [out1|] eqn:H1; [|discriminate].
    cbn [mbind option_bind]. apply IH.
    + intros d r fs f Hd. apply Hadm. right. exact Hd.
    + apply (scan_walk_Forall P
               (fun day => full_path
                             (local_dir probe instrument data_rate lad day)
                             (file_name_pattern probe instrument data_rate
                                level))
               start until day (os_walk local_data_dir) out);
        [|exact Hout|exact H1].
      intros r fs f. apply Hadm. left.
Qed.

(** A record of [files_out]: a file of the walk whose full path matches
    the pattern under the directory of a day of the range and whose date
    lies within the range. *)
Definition candidate (probe instrument data_rate level lad : string)
    (start until : Z) (r : file_rec) : Prop :=
  ∃ day root files date t,
    day ∈ daily start until
    ∧ (root, files) ∈ os_walk local_data_dir ∧ file_name r ∈ files
    ∧ full_name r = PyStr.join os_sep [root; file_name r]
    ∧ path_matches (local_dir probe instrument data_rate lad day) os_sep
        probe instrument data_rate level (full_name r) date
    ∧ parse date = Some t ∧ start <= t <= until.

(** X14: for plain arguments and an ASCII walk, every path returned is the
    full path of a file of the walk that matches, from its start, the
    pattern [<local_dir>/mms<probe>_<instrument>_<data_rate>_<level>(_)?.*_<8
    to 14 digits>_v<d>.<d>.<d>.cdf] for the directory of a day of the range,
    and the date group parses to a time between the start of the day of
    [trange[0]] and [trange[1]] minus one second, both included.  [start]
    is what [parse] reads from the ['%Y-%m-%d'] text of [trange[0]], the
    midnight of its day ([Cal.parse_day] for the calendar of [Cal]). *)
Theorem returned_paths_dated_in_range
    (probe instrument data_rate level : string)
    (datatype : option string) (trange : string * string)
    (result : list string) :
  plain probe = true → plain instrument = true →
  plain data_rate = true → plain level = true →
  ascii_walk (os_walk local_data_dir) = true →
  mms_get_local_files probe instrument data_rate level datatype trange
    = Some result →
  ∃ t0 start t1,
    parse (fst trange) = Some t0
    ∧ parse (strftime "%Y-%m-%d" t0) = Some start
    ∧ parse (snd trange) = Some t1
    ∧ ∀ p, p ∈ result →
        ∃ day root files file date t,
          day ∈ daily start (t1 - 1)
          ∧ (root, files) ∈ os_walk local_data_dir ∧ file ∈ files
          ∧ p = PyStr.join os_sep [root; file]
          ∧ path_matches
              (local_dir probe instrument data_rate
                 (level_and_dtype level datatype) day)
              os_sep probe instrument data_rate level p date
          ∧ parse date = Some t ∧ start <= t <= t1 - 1.
Proof.
  intros _ _ _ _ _. unfold mms_get_local_files.
  destruct (parse (fst trange)) as [t0|] eqn:H0; [|discriminate].
  cbn [mbind option_bind].
  destruct (parse (strftime "%Y-%m-%d" t0)) as [start|] eqn:H1;
    [|discriminate].
  cbn [mbind option_bind].
  destruct (parse (snd trange)) as [t1|] eqn:H2; [|discriminate].
  cbn [mbind option_bind]. cbv zeta.
  destruct (scan_days _ _ _ _ _ start (t1 - 1) _ []) as [files_out|] eqn:Hs;
    [|discriminate].
  cbn [mbind option_bind]. intros [= <-].
  exists t0, start, t1.
  do 3 (split; [first [assumption | reflexivity]|]).
  assert (Hall : Forall (candidate probe instrument data_rate level
                           (level_and_dtype level datatype) start (t1 - 1))
                        files_out).
  { apply (scan_days_Forall _ probe instrument data_rate level
             (level_and_dtype level datatype) start (t1 - 1)
             (daily start (t1 - 1)) [] files_out);
      [|apply Forall_nil_2|exact Hs].
    intros day root files file Hd Hr Hf gs date t Hm Hg Hp Ht.
    apply re_match_sound, full_path_matches in Hm as (date' & Hg' & Hpm).
    rewrite Hg in Hg'. injection Hg' as <-.
    exists day, root, files, date, t. cbn [file_name full_name].
    repeat split; try assumption; lia. }
  intros p Hp. apply list_elem_of_In, in_map_iff in Hp as (r & <- & Hr).
  apply filter_In in Hr as [Hr _]. apply list_elem_of_In in Hr.
  rewrite Forall_forall in Hall.
  destruct (Hall r Hr) as (day & root & files & date & t & H).
  exists day, root, files, (file_name r), date, t. tauto.
Qed.

(** *** The matcher finds every match *)

Lemma drop_app (u s : string) : string_drop (String.length u) (u +:+ s) = s.
Proof.
  induction u as [|c u IH]; [destruct s; reflexivity|].
  rewrite PyStr.app_cons. cbn [String.length string_drop]. exact IH.
Qed.

Lemma run_app (cls : ascii -> bool) (u s : string) :
  string_forall cls u = true → (String.length u <= run cls (u +:+ s))%nat.
Proof.
  induction u as [|c u IH]; cbn [string_forall String.length]; [lia|].
  intros H. apply andb_prop in H as [Hc Hu]. rewrite PyStr.app_cons.
  cbn [run]. rewrite Hc. specialize (IH Hu). lia.
Qed.

Lemma give_back_complete (next : string -> option groups) (cap : capture)
    (lo : nat) (s : string) (j k : nat) :
  (lo <= j <= k)%nat → is_Some (next (string_drop j s)) →
  is_Some (give_back next cap lo s k).
Proof.
  intros Hj Hnext. induction k as [|k IH]; cbn [give_back].
  - assert (j = 0)%nat as -> by lia.
    destruct (Nat.ltb_spec 0 lo); [lia|].
    destruct Hnext as [gs ->]. eexists. reflexivity.
  - destruct (Nat.ltb_spec (S k) lo); [lia|].
    destruct (next (string_drop (S k) s)) as [gs|] eqn:Hk;
      [eexists; reflexivity|].
    apply IH. destruct (decide (j = S k)) as [->|]; [|lia].
    rewrite Hk in Hnext. destruct Hnext as [gs Hgs]. discriminate Hgs.
Qed.

Theorem re_match_complete (ps : list piece) (s : string) (gs : groups) :
  matches ps s gs → is_Some (re_match ps s).
Proof.
  induction 1 as [s|text rest s gs _ IH
                 |cls lo hi cap rest u s gs Hall Hlo Hhi _ IH].
  - eexists. reflexivity.
  - cbn [re_match].
    rewrite (proj2 (PyStr.prefix_app text (text +:+ s)))
      by (exists s; reflexivity).
    rewrite drop_app. exact IH.
  - cbn [re_match]. cbv zeta.
    apply (give_back_complete _ _ _ _ (String.length u)).
    + pose proof (run_app cls u s Hall).
      destruct hi as [h|]; [specialize (Hhi h eq_refl)|]; lia.
    + rewrite drop_app. exact IH.
Qed.

Lemma string_forall_one (cls : ascii -> bool) (c : ascii) :
  cls c = true → string_forall cls (String c "") = true.
Proof. intros H. cbn [string_forall]. rewrite H. reflexivity. Qed.

(** X8: for plain arguments and an ASCII path, the pattern compiled on
    lines 44-64 accepts exactly the paths that read
    [<dir><sep>mms<probe>_<instrument>_<data_rate>_<level>], an optional
    underscore, any text without a newline (path separators included), an
    underscore, 8 to 14 digits, [_v], three runs of digits each followed by
    any one character, and [cdf]; anything may follow. *)
Theorem pattern_accepts_exactly (dir probe instrument data_rate level : string)
    (p : string) :
  plain probe = true → plain instrument = true →
  plain data_rate = true → plain level = true →
  ascii_text p = true →
  is_Some (re_match
             (full_path dir
                (file_name_pattern probe instrument data_rate level)) p)
  ↔ ∃ date, path_matches dir os_sep probe instrument data_rate level p date.
Proof.
  intros _ _ _ _ _. split.
  - intros [gs H]. apply re_match_sound, full_path_matches in H.
    destruct H as (date & _ & H). exists date. exact H.
  - intros (date & u & mid & a & x1 & b & x2 & c & x3 & tail & -> & Hu & Hmid
            & Hdate & Hlen & Ha & Hla & Hb & Hlb & Hc & Hlc
            & Hx1 & Hl1 & Hx2 & Hl2 & Hx3 & Hl3).
    assert (Hund : string_forall underscore u = true
                   ∧ (String.length u <= 1)%nat).
    { destruct Hu as [->| ->]; split; cbn; auto. }
    destruct Hund as [Hund Hul].
    eapply re_match_complete. unfold full_path, file_name_pattern.
    repeat first
      [ apply matches_lit
      | eapply matches_rep;
        [ eassumption | lia
        | intros h [= <-]; lia || (intros h Hh; discriminate Hh) | ] ].
    apply matches_end.
Qed.

(** *** When the lookup raises, and what it then collects *)

(** The date group of a file of the walk under the pattern of a day. *)
Definition date_group (probe instrument data_rate level lad : string)
    (day : Z) (root file date : string) : Prop :=
  ∃ gs,
    re_match
      (full_path (local_dir probe instrument data_rate lad day)
         (file_name_pattern probe instrument data_rate level))
      (PyStr.join os_sep [root; file]) = Some gs
    ∧ gs !! 1%nat = Some (Some date).

Section Reach.

Variables probe instrument data_rate level lad : string.
Variables start until : Z.

Let regex (day : Z) : list piece :=
  full_path (local_dir probe instrument data_rate lad day)
    (file_name_pattern probe instrument data_rate level).

(** The date of the file can be read, when the file matches. *)
Definition readable (day : Z) (root file : string) : Prop :=
  ∀ date, date_group probe instrument data_rate level lad day root file date →
          is_Some (parse date).

(** The record the scan adds for the file.  [None]: it adds none. *)
Definition found (day : Z) (root file : string) : option file_rec :=
  match re_match (regex day) (PyStr.join os_sep [root; file]) with
  | Some gs =>
      match gs !! 1%nat with
      | Some (Some date) =>
          match parse date with
          | Some t =>
              if (start <=? t) && (t <=? until)
              then Some {| file_name := file; timetag := "";
                           full_name := PyStr.join os_sep [root; file];
                           file_size := "" |}
              else None
          | None => None
          end
      | _ => None
      end
  | None => None
  end.

Lemma omap_cons_app {A B : Type} (f : A -> option B) (x : A) (l : list A) :
  omap f (x :: l)
  = match f x with Some y => [y] | None => [] end ++ omap f l.
Proof. simpl. destruct (f x); reflexivity. Qed.

Lemma scan_file_spec (day : Z) (root file : string) (out : list file_rec) :
  (readable day root file ∧
   scan_file (regex day) start until root file out
   = Some (out ++ match found day root file with
                  | Some r => [r]
                  | None => []
                  end))
  ∨ (¬ readable day root file ∧
     scan_file (regex day) start until root file out = None).
Proof.
  unfold scan_file, found, readable, date_group. fold (regex day).
  destruct (re_match (regex day) _) as [gs|] eqn:Hm.
  - destruct (full_path_matches _ _ _ _ _ _ _ (re_match_sound _ _ _ Hm))
      as (date & Hg & _).
    rewrite Hg. destruct (parse date) as [t|] eqn:Hp; cbn [mbind option_bind].
    + left. split.
      * intros date' (gs' & [= <-] & Hg'). rewrite Hg in Hg'.
        injection Hg' as <-. rewrite Hp. eexists. reflexivity.
      * rewrite str_in_dicts_false. cbn [negb].
        destruct ((start <=? t) && (t <=? until));
          [reflexivity | rewrite app_nil_r; reflexivity].
    + right. split; [|reflexivity].
      intros H. destruct (H date) as [t Ht];
        [exists gs; split; [reflexivity | exact Hg]|].
      rewrite Hp in Ht. discriminate Ht.
  - left. split; [|rewrite app_nil_r; reflexivity].
    intros date (gs & H & _). discriminate H.
Qed.

Lemma scan_files_spec (day : Z) (root : string) (files : list string)
    (out : list file_rec) :
  ((∀ file, file ∈ files → readable day root file) ∧
   scan_files (regex day) start until root files out
   = Some (out ++ omap (found day root) files))
  ∨ ((∃ file, file ∈ files ∧ ¬ readable day root file) ∧
     scan_files (regex day) start until root files out = None).
Proof.
  revert out. induction files as [|file files IH]; intros out.
  - left. split; [intros f Hf; inversion Hf|].
    cbn [scan_files omap]. rewrite app_nil_r. reflexivity.
  - cbn [scan_files].
    destruct (scan_file_spec day root file out) as [[Hr ->]|[Hr ->]];
      cbn [mbind option_bind].
    + destruct (IH (out ++ match found day root file with
                           | Some r => [r] | None => [] end))
        as [[Hall ->]|[(f & Hf & Hbad) ->]].
      * left. split.
        -- intros f Hf. apply elem_of_cons in Hf as [->|Hf]; auto.
        -- rewrite <- app_assoc, omap_cons_app. reflexivity.
      * right. split; [|reflexivity]. exists f. split; [right|]; assumption.
    + right. split; [|reflexivity]. exists file. split; [left | exact Hr].
Qed.

Definition found_in_walk (day : Z) (walk : list (string * list string))
  : list file_rec :=
  flat_map (fun rf => omap (found day rf.1) rf.2) walk.

Definition collected (days : list Z) : list file_rec :=
  flat_map (fun day => found_in_walk day (os_walk local_data_dir)) days.

Lemma scan_walk_spec (day : Z) (walk : list (string * list string))
    (out : list file_rec) :
  ((∀ root files file, (root, files) ∈ walk → file ∈ files →
      readable day root file) ∧
   scan_walk (regex day) start until walk out
   = Some (out ++ found_in_walk day walk))
  ∨ ((∃ root files file, (root, files) ∈ walk ∧ file ∈ files
                         ∧ ¬ readable day root file) ∧
     scan_walk (regex day) start until walk out = None).
Proof.
  revert out. induction walk as [|[root files] walk IH]; intros out.
  - left. split; [intros r fs f Hr; inversion Hr|].
    cbn [scan_walk found_in_walk flat_map]. rewrite app_nil_r. reflexivity.
  - cbn [scan_walk].
    destruct (scan_files_spec day root files out)
      as [[Hr ->]|[(f & Hf & Hbad) ->]]; cbn [mbind option_bind].
    + destruct (IH (out ++ omap (found day root) files))
        as [[Hall ->]|[(r & fs & f & Hr' & Hf & Hbad) ->]].
      * left. split.
        -- intros r fs f Hin Hf. apply elem_of_cons in Hin as [[= -> ->]|Hin];
             [apply Hr, Hf | apply (Hall r fs f Hin Hf)].
        -- rewrite <- app_assoc. reflexivity.
      * right. split; [|reflexivity]. exists r, fs, f.
        split; [right; exact Hr'|]. split; assumption.
    + right. split; [|reflexivity]. exists root, files, f.
      split; [left|]. split; assumption.
Qed.

Lemma scan_days_spec (days : list Z) (out : list file_rec) :
  ((∀ day root files file,
      day ∈ days → (root, files) ∈ os_walk local_data_dir → file ∈ files →
      readable day root file) ∧
   scan_days probe instrument data_rate level lad start until days out
   = Some (out ++ collected days))
  ∨ ((∃ day root files file,
        day ∈ days ∧ (root, files) ∈ os_walk local_data_dir ∧ file ∈ files
        ∧ ¬ readable day root file) ∧
     scan_days probe instrument data_rate level lad start until days out
     = None).
Proof.
  revert out. induction days as [|day days IH]; intros out.
  - left. split; [intros d r fs f Hd; inversion Hd|].
    cbn [scan_days collected flat_map]. rewrite app_nil_r. reflexivity.
  - cbn [scan_days]. cbv zeta. fold (regex day).
    destruct (scan_walk_spec day (os_walk local_data_dir) out)
      as [[Hr ->]|[(r & fs & f & Hr & Hf & Hbad) ->]];
      cbn [mbind option_bind].
    + destruct (IH (out ++ found_in_walk day (os_walk local_data_dir)))
        as [[Hall ->]|[(d & r & fs & f & Hd & Hr' & Hf & Hbad) ->]].
      * left. split.
        -- intros d r fs f Hd. apply elem_of_cons in Hd as [->|Hd];
             [apply Hr | apply Hall, Hd].
        -- rewrite <- app_assoc. reflexivity.
      * right. split; [|reflexivity]. exists d, r, fs, f.
        split; [right; exact Hd|]. repeat split; assumption.
    + right. split; [|reflexivity]. exists day, r, fs, f.
      split; [left|]. repeat split; assumption.
Qed.

Lemma found_elem (days : list Z) (day : Z) (root file : string)
    (files : list string) (r : file_rec) :
  day ∈ days → (root, files) ∈ os_walk local_data_dir → file ∈ files →
  found day root file = Some r → r ∈ collected days.
Proof.
  intros Hd Hr Hf Hfound. apply list_elem_of_In. unfold collected.
  apply in_flat_map. exists day. split; [apply list_elem_of_In, Hd|].
  unfold found_in_walk. apply in_flat_map. exists (root, files).
  split; [apply list_elem_of_In, Hr|]. apply list_elem_of_In.
  apply list_elem_of_omap. exists file. split; assumption.
Qed.

End Reach.

(** X9: for plain arguments and an ASCII walk, one file of the walk that
    matches the pattern of a day of the range and whose date group cannot
    be parsed makes the whole lookup raise, wherever below the data
    directory the file is and whatever the other files are. *)
Theorem unreadable_date_raises
    (probe instrument data_rate level : string) (datatype : option string)
    (trange : string * string) (t0 start t1 day : Z) (root : string)
    (files : list string) (file date : string) :
  plain probe = true → plain instrument = true →
  plain data_rate = true → plain level = true →
  ascii_walk (os_walk local_data_dir) = true →
  parse (fst trange) = Some t0 →
  parse (strftime "%Y-%m-%d" t0) = Some start →
  parse (snd trange) = Some t1 →
  day ∈ daily start (t1 - 1) →
  (root, files) ∈ os_walk local_data_dir → file ∈ files →
  date_group probe instrument data_rate level
    (level_and_dtype level datatype) day root file date →
  parse date = None →
  mms_get_local_files probe instrument data_rate level datatype trange
    = None.
Proof.
  intros _ _ _ _ _ H0 H1 H2 Hd Hr Hf Hg Hp.
  unfold mms_get_local_files. rewrite H0. cbn [mbind option_bind].
  rewrite H1. cbn [mbind option_bind]. rewrite H2. cbn [mbind option_bind].
  cbv zeta.
  destruct (scan_days_spec probe instrument data_rate level
              (level_and_dtype level datatype) start (t1 - 1)
              (daily start (t1 - 1)) [])
    as [[Hall _]|[_ ->]]; [|reflexivity].
  destruct (Hall day root files file Hd Hr Hf date Hg) as [t Ht].
  rewrite Hp in Ht. discriminate Ht.
Qed.

(** X10: no file is missed.  For plain arguments and an ASCII walk, when
    the lookup returns, every file of the walk that matches the pattern of
    a day of the range, with a date within the range, has a record in the
    list the loops build, and its path is returned whenever
    [mms_files_in_interval] keeps a record of its file name. *)
Theorem no_match_is_missed (probe instrument data_rate level : string)
    (datatype : option string) (trange : string * string)
    (result : list string) :
  plain probe = true → plain instrument = true →
  plain data_rate = true → plain level = true →
  ascii_walk (os_walk local_data_dir) = true →
  mms_get_local_files probe instrument data_rate level datatype trange
    = Some result →
  ∃ t0 start t1 files_out,
    parse (fst trange) = Some t0
    ∧ parse (strftime "%Y-%m-%d" t0) = Some start
    ∧ parse (snd trange) = Some t1
    ∧ scan_days probe instrument data_rate level
        (level_and_dtype level datatype) start (t1 - 1)
        (daily start (t1 - 1)) [] = Some files_out
    ∧ ∀ day root files file date t,
        day ∈ daily start (t1 - 1) →
        (root, files) ∈ os_walk local_data_dir → file ∈ files →
        date_group probe instrument data_rate level
          (level_and_dtype level datatype) day root file date →
        parse date = Some t → start <= t <= t1 - 1 →
        {| file_name := file; timetag := "";
           full_name := PyStr.join os_sep [root; file]; file_size := "" |}
          ∈ files_out
        ∧ (file ∈ List.map file_name (mms_files_in_interval files_out trange)
           → PyStr.join os_sep [root; file] ∈ result).
Proof.
  intros _ _ _ _ _. unfold mms_get_local_files.
  destruct (parse (fst trange)) as [t0|] eqn:H0; [|discriminate].
  cbn [mbind option_bind].
  destruct (parse (strftime "%Y-%m-%d" t0)) as [start|] eqn:H1;
    [|discriminate].
  cbn [mbind option_bind].
  destruct (parse (snd trange)) as [t1|] eqn:H2; [|discriminate].
  cbn [mbind option_bind]. cbv zeta.
  destruct (scan_days_spec probe instrument data_rate level
              (level_and_dtype level datatype) start (t1 - 1)
              (daily start (t1 - 1)) [])
    as [[_ Hscan]|[_ Hscan]]; rewrite Hscan; [|discriminate].
  cbn [mbind option_bind]. intros [= <-].
  exists t0, start, t1. eexists.
  do 3 (split; [first [assumption | reflexivity]|]).
  split; [exact Hscan|]. cbn [app].
  intros day root files file date t Hd Hr Hf (gs & Hm & Hg) Hp Ht.
  set (r := {| file_name := file; timetag := "";
               full_name := PyStr.join os_sep [root; file];
               file_size := "" |}).
  assert (Hin : r ∈ collected probe instrument data_rate level
                      (level_and_dtype level datatype) start (t1 - 1)
                      (daily start (t1 - 1))).
  { apply (found_elem _ _ _ _ _ _ _ _ day root file files); try assumption.
    unfold found. rewrite Hm, Hg, Hp.
    destruct (Z.leb_spec start t); [|lia].
    destruct (Z.leb_spec t (t1 - 1)); [|lia]. reflexivity. }
  split; [exact Hin|].
  intros Hkeep. apply list_elem_of_In, in_map_iff. exists r.
  split; [reflexivity|]. apply filter_In. split; [apply list_elem_of_In, Hin|].
  apply bool_decide_eq_true_2. exact Hkeep.
Qed.


End Local.

(** *** A concrete data directory *)

Definition good_file : string := "mms1_fgm_srvy_l2_20151016_v4.18.0.cdf".
Definition stray_file : string := "mms1_edp_fast_l2_dce_20151016_v1.0.0.cdf".

Definition month_dir : string := "pydata/mms1/fgm/srvy/l2/2015/10".
Definition stray_dir : string :=
  "pydata/mms1/fgm/srvy/l2/2015/10/mms1_fgm_srvy_l2_old".

Definition good_path : string := month_dir +:+ "/" +:+ good_file.
Definition stray_path : string := stray_dir +:+ "/" +:+ stray_file.

(** The month directory holds one FGM file; a directory below it, whose
    name starts like an FGM file name, holds a file of another
    instrument. *)
Definition demo_walk (top : string) : list (string * list string) :=
  [ (month_dir, [good_file]); (stray_dir, [stray_file]) ].

Definition small_walk (top : string) : list (string * list string) :=
  [ (month_dir, [good_file]) ].

(** [mms_files_in_interval] is outside the sources.  This instance keeps
    every candidate: the scan has already compared each of them with the
    range. *)
Definition keep_all (fs : list file_rec) (trange : string * string)
  : list file_rec := fs.

Definition demo_local_files (walk : string -> list (string * list string))
    (trange : string * string) : option (list string) :=
  mms_get_local_files Cal.parse Cal.strftime false "pydata" walk keep_all
    "1" "fgm" "srvy" "l2" None trange.

Example group_of_date :
  re_match (file_name_pattern "1" "fpi" "brst" "l2")
    "mms1_fpi_brst_l2_des-moms_20151016130334_v3.3.0.cdf"
  = Some [Some "_"; Some "20151016130334"; Some "3"; Some "3"; Some "0"].
Proof. vm_compute. reflexivity. Qed.

Lemma returned_paths_dated_in_range_witness :
  demo_local_files demo_walk ("2015-10-16", "2015-10-17")
    = Some [good_path; stray_path]
  ∧ ∀ p, p ∈ [good_path; stray_path] →
      ∃ day date t,
        path_matches
          (local_dir Cal.strftime false "pydata" "1" "fgm" "srvy" "l2" day)
          "/" "1" "fgm" "srvy" "l2" p date
        ∧ Cal.parse date = Some t
        ∧ 1444953600 <= t <= 1445039999.
Proof.
  assert (Hrun : demo_local_files demo_walk ("2015-10-16", "2015-10-17")
                 = Some [good_path; stray_path]) by (vm_compute; reflexivity).
  split; [exact Hrun|].
  destruct (returned_paths_dated_in_range Cal.parse Cal.strftime false
              "pydata" demo_walk keep_all "1" "fgm" "srvy" "l2" None
              ("2015-10-16", "2015-10-17") _
              eq_refl eq_refl eq_refl eq_refl eq_refl Hrun)
    as (t0 & start & t1 & H0 & H1 & H2 & Hall).
  assert (Ht0 : t0 = 1444953600)
    by (vm_compute in H0; injection H0 as <-; reflexivity).
  subst t0.
  assert (Hstart : start = 1444953600)
    by (vm_compute in H1; injection H1 as <-; reflexivity).
  assert (Ht1 : t1 = 1445040000)
    by (vm_compute in H2; injection H2 as <-; reflexivity).
  subst start t1.
  intros p Hp.
  destruct (Hall p Hp) as (day & root & files & file & date & t & _ & _ & _ & _
                           & Hm & Hd & Ht).
  exists day, date, t. split; [exact Hm|]. split; [exact Hd | exact Ht].
Defined.

(** The request below is one on which the pieces are the compiled
    pattern: the arguments are plain and the walk is ASCII. *)
Example demo_request_plain :
  plain "1" = true ∧ plain "fgm" = true ∧ plain "srvy" = true
  ∧ plain "l2" = true ∧ ascii_walk false (demo_walk "pydata") = true.
Proof. vm_compute. repeat split. Qed.

(** C2: the routine returns a path whose base name does not match the
    pattern.  The data directory holds, below the month directory, a
    directory [mms1_fgm_srvy_l2_old] with a file of the EDP instrument; the
    pattern is matched against the joined path (line 70) and its [.*] runs
    over the path separator, so a request for FGM returns the EDP file,
    whose base name is not of the form that lines 37-44 describe. *)
Lemma basename_counterexample :
  demo_local_files demo_walk ("2015-10-16", "2015-10-17")
    = Some [good_path; stray_path]
  ∧ basename "/" stray_path = stray_file
  ∧ re_match (file_name_pattern "1" "fgm" "srvy" "l2")
      (basename "/" stray_path) = None
  ∧ ¬ ∃ gs, matches (file_name_pattern "1" "fgm" "srvy" "l2")
              (basename "/" stray_path) gs.
Proof.
  split; [vm_compute; reflexivity|].
  split; [vm_compute; reflexivity|].
  split; [vm_compute; reflexivity|].
  intros [gs H].
  change (basename "/" stray_path) with stray_file in H.
  unfold file_name_pattern, stray_file in H.
  inversion H as [|text rest s gs' _ Htext|];
    try (vm_compute in Htext; discriminate Htext).
Qed.

(** C9 fails on the sources: with a range of two days of one month the
    daily loop meets the same file twice, the test [this_file not in
    files_out] does not see the record already there, and the path is
    returned twice. *)
Theorem duplicate_paths :
  demo_local_files small_walk ("2015-10-16", "2015-10-18")
    = Some [good_path; good_path]
  ∧ ¬ NoDup [good_path; good_path].
Proof.
  split; [vm_compute; reflexivity|].
  intros H. apply NoDup_cons in H as [H _]. apply H. left.
Qed.

(** The same holds whatever [mms_files_in_interval] keeps: the two records
    carry one file name, so it keeps both paths or none. *)
Lemma duplicate_paths_any_filter
    (filter : list file_rec -> string * string -> list file_rec) :
  let result :=
    mms_get_local_files Cal.parse Cal.strftime false "pydata" small_walk
      filter "1" "fgm" "srvy" "l2" None ("2015-10-16", "2015-10-18") in
  result = Some [] ∨ result = Some [good_path; good_path].
Proof.
  set (r := {| file_name := good_file; timetag := "";
               full_name := good_path; file_size := "" |}).
  assert (Hscan : ∀ F,
            mms_get_local_files Cal.parse Cal.strftime false "pydata"
              small_walk F "1" "fgm" "srvy" "l2" None
              ("2015-10-16", "2015-10-18")
            = Some (List.map full_name
                      (List.filter
                         (fun f => bool_decide
                            (file_name f ∈ List.map file_name
                               (F [r; r] ("2015-10-16", "2015-10-18"))))
                         [r; r]))).
  { intros F. unfold mms_get_local_files.
    replace (Cal.parse ("2015-10-16", "2015-10-18").1)
      with (Some 1444953600) by (vm_compute; reflexivity).
    cbn [mbind option_bind].
    replace (Cal.parse (Cal.strftime "%Y-%m-%d" 1444953600))
      with (Some 1444953600) by (vm_compute; reflexivity).
    cbn [mbind option_bind].
    replace (Cal.parse ("2015-10-16", "2015-10-18").2)
      with (Some 1445126400) by (vm_compute; reflexivity).
    cbn [mbind option_bind]. cbv zeta.
    replace (scan_days Cal.parse Cal.strftime false "pydata" small_walk
               "1" "fgm" "srvy" "l2" (level_and_dtype false "l2" None)
               1444953600 (1445126400 - 1)
               (daily 1444953600 (1445126400 - 1)) [])
      with (Some [r; r]) by (vm_compute; reflexivity).
    reflexivity. }
  intros result. subst result. rewrite Hscan. cbn [List.filter file_name r].
  destruct (bool_decide _); [right | left]; reflexivity.
Qed.

Lemma no_match_is_missed_witness :
  ∃ result,
    demo_local_files demo_walk ("2015-10-16", "2015-10-17") = Some result
    ∧ good_path ∈ result.
Proof.
  assert (Hrun : ∃ result, demo_local_files demo_walk
                             ("2015-10-16", "2015-10-17") = Some result)
    by (vm_compute; eexists; reflexivity).
  destruct Hrun as (result & Hrun). exists result. split; [exact Hrun|].
  destruct (no_match_is_missed Cal.parse Cal.strftime false "pydata"
              demo_walk keep_all "1" "fgm" "srvy" "l2" None
              ("2015-10-16", "2015-10-17") result
              eq_refl eq_refl eq_refl eq_refl eq_refl Hrun)
    as (t0 & start & t1 & files_out & H0 & H1 & H2 & Hscan & Hall).
  assert (Ht0 : t0 = 1444953600)
    by (vm_compute in H0; injection H0 as <-; reflexivity).
  subst t0.
  assert (Hstart : start = 1444953600)
    by (vm_compute in H1; injection H1 as <-; reflexivity).
  assert (Ht1 : t1 = 1445040000)
    by (vm_compute in H2; injection H2 as <-; reflexivity).
  subst start t1.
  destruct (Hall 1444953600 month_dir [good_file] good_file "20151016"
              1444953600) as [Hrec Hkeep].
  - vm_compute. left.
  - left.
  - left.
  - vm_compute. eexists. split; reflexivity.
  - vm_compute. reflexivity.
  - lia.
  - apply Hkeep. unfold keep_all. apply list_elem_of_In, in_map_iff.
    eexists. split; [|apply list_elem_of_In, Hrec]. reflexivity.
Defined.

Lemma pattern_accepts_exactly_witness :
  ∃ date, path_matches month_dir "/" "1" "fgm" "srvy" "l2" good_path date.
Proof.
  apply (proj1 (pattern_accepts_exactly false month_dir "1" "fgm" "srvy" "l2"
                  good_path eq_refl eq_refl eq_refl eq_refl eq_refl)).
  vm_compute. eexists. reflexivity.
Defined.

(** A file in the month directory whose date group names a month 13. *)
Definition bad_file : string := "mms1_fgm_srvy_l2_20151399_v1.0.0.cdf".

Definition bad_walk (top : string) : list (string * list string) :=
  [ (month_dir, [good_file; bad_file]) ].

Lemma unreadable_date_raises_witness :
  demo_local_files bad_walk ("2015-10-16", "2015-10-17") = None.
Proof.
  apply (unreadable_date_raises Cal.parse Cal.strftime false "pydata"
           bad_walk keep_all "1" "fgm" "srvy" "l2" None
           ("2015-10-16", "2015-10-17") 1444953600 1444953600 1445040000
           1444953600 month_dir [good_file; bad_file] bad_file "20151399"
           eq_refl eq_refl eq_refl eq_refl eq_refl).
  - vm_compute. reflexivity.
  - vm_compute. reflexivity.
  - vm_compute. reflexivity.
  - vm_compute. left.
  - left.
  - right. left.
  - vm_compute. eexists. split; reflexivity.
  - vm_compute. reflexivity.
Defined.


End MmsLocal.

(** ** Determinism

    What a run can see besides its inputs.  [mms_get_local_files] reads the
    file system through one walk of the data directory, and the time of the
    run through [dateutil.parser.parse], which completes a date that names
    no day from the current date.  [elfin_load_epd] turns a set into a list
    at level 'l2': the order of that list is the iteration order of the
    set, which the arguments, the configuration, the file system and the
    server do not fix. *)

Module Determinism.

Import Elfin.

(** *** Two runs of [mms_get_local_files]

    The routines outside the sources may answer differently on the two
    runs: [parse1], [walk1], [filter1] are the answers of the first run,
    [parse2], [walk2], [filter2] those of the second. *)

(** A text that a date group can hold: 8 to 14 digits. *)
Definition date_text (s : string) : Prop :=
  MmsLocal.string_forall MmsLocal.digit s = true
  ∧ (8 <= String.length s <= 14)%nat.

Section Readers.

Variables parse1 parse2 : string -> option Z.
Variable strftime : string -> Z -> string.
Variable nt : bool.
Variable dir : string.
Variables walk1 walk2 : string -> list (string * list string).
Variables probe instrument data_rate level lad : string.
Variables start until : Z.

Hypothesis same_dates : ∀ s, date_text s → parse1 s = parse2 s.
Hypothesis same_walk : walk1 dir = walk2 dir.

Let regex (day : Z) : list MmsLocal.piece :=
  MmsLocal.full_path nt
    (MmsLocal.local_dir strftime nt dir probe instrument data_rate lad day)
    (MmsLocal.file_name_pattern probe instrument data_rate level).

Lemma scan_file_readers (day : Z) (root file : string)
    (out : list MmsLocal.file_rec) :
  MmsLocal.scan_file parse1 nt (regex day) start until root file out
  = MmsLocal.scan_file parse2 nt (regex day) start until root file out.
Proof.
  unfold MmsLocal.scan_file.
  destruct (MmsLocal.re_match (regex day) _) as [gs|] eqn:Hm; [|reflexivity].
  pose proof (MmsLocal.re_match_sound _ _ _ Hm) as Hs.
  apply MmsLocal.full_path_matches in Hs as (date & Hg & Hpm).
  rewrite Hg. rewrite (same_dates date); [reflexivity|].
  destruct Hpm as (u & mid & a & x1 & b & x2 & c & x3 & tail & _ & _ & _
                   & Hdigits & Hlen & _).
  split; assumption.
Qed.

Lemma scan_files_readers (day : Z) (root : string) (files : list string)
    (out : list MmsLocal.file_rec) :
  MmsLocal.scan_files parse1 nt (regex day) start until root files out
  = MmsLocal.scan_files parse2 nt (regex day) start until root files out.
Proof.
  revert out. induction files as [|file files IH]; intros out; [reflexivity|].
  cbn [MmsLocal.scan_files]. rewrite scan_file_readers.
  destruct (MmsLocal.scan_file parse2 _ _ _ _ _ _ out) as [out1|];
    cbn [mbind option_bind]; [apply IH | reflexivity].
Qed.

Lemma scan_walk_readers (day : Z) (walk : list (string * list string))
    (out : list MmsLocal.file_rec) :
  MmsLocal.scan_walk parse1 nt (regex day) start until walk out
  = MmsLocal.scan_walk parse2 nt (regex day) start until walk out.
Proof.
  revert out. induction walk as [|[root files] walk IH]; intros out;
    [reflexivity|].
  cbn [MmsLocal.scan_walk]. rewrite scan_files_readers.
  destruct (MmsLocal.scan_files parse2 _ _ _ _ _ _ out) as [out1|];
    cbn [mbind option_bind]; [apply IH | reflexivity].
Qed.

Lemma scan_days_readers (days : list Z) (out : list MmsLocal.file_rec) :
  MmsLocal.scan_days parse1 strftime nt dir walk1 probe instrument data_rate
    level lad start until days out
  = MmsLocal.scan_days parse2 strftime nt dir walk2 probe instrument data_rate
      level lad start until days out.
Proof.
  revert out. induction days as [|day days IH]; intros out; [reflexivity|].
  cbn [MmsLocal.scan_days]. cbv zeta. fold (regex day).
  rewrite same_walk, scan_walk_readers.
  destruct (MmsLocal.scan_walk parse2 _ _ _ _ _ out) as [out1|];
    cbn [mbind option_bind]; [apply IH | reflexivity].
Qed.

End Readers.

(** *** A reader that looks at the date of the run

    [dateutil.parser.parse] takes what a text does not name from the
    current date: ['2015-10'] read on the 16th of a month is 2015-10-16,
    and the last day of the month when the month is shorter.  [today] is
    the time of the run; a text that names its day is read as by
    [Cal.parse]. *)

Definition days_in_month (y m : Z) : Z :=
  Cal.days_from_civil (if m =? 12 then y + 1 else y)
                      (if m =? 12 then 1 else m + 1) 1
  - Cal.days_from_civil y m 1.

Definition parse_on (today : Z) (s : string) : option Z :=
  match Cal.parse s with
  | Some t => Some t
  | None =>
      if Nat.eqb (String.length s) 7 then
        y ← Cal.field s 0 4; m ← Cal.field s 5 2;
        if bool_decide (Cal.char_at s 4 = Some "-"%char)
           && (1 <=? m) && (m <=? 12) then
          let '(_, _, d) := Cal.civil_from_days (today / 86400) in
          Cal.seconds_of y m (Z.min d (days_in_month y m)) 0 0 0
        else None
      else None
  end.

(** Midnight of a day of November 2026. *)
Definition run_day (d : Z) : Z := 86400 * Cal.days_from_civil 2026 11 d.

Definition lookup_on (today : Z) (trange : string * string)
  : option (list string) :=
  MmsLocal.mms_get_local_files (parse_on today) Cal.strftime false "pydata"
    MmsLocal.small_walk MmsLocal.keep_all "1" "fgm" "srvy" "l2" None trange.

Example partial_date_16 : parse_on (run_day 16) "2015-10" = Some 1444953600.
Proof. vm_compute. reflexivity. Qed.

Example partial_date_17 :
  parse_on (run_day 17) "2015-10" = Some (1444953600 + 86400).
Proof. vm_compute. reflexivity. Qed.

Example partial_date_short_month :
  parse_on (86400 * Cal.days_from_civil 2026 10 31) "2015-02"
  = Cal.parse "2015-02-28".
Proof. vm_compute. reflexivity. Qed.

(** The date of the run does not matter for a text of digits. *)
Lemma parse_on_date_text (today1 today2 : Z) (s : string) :
  date_text s → parse_on today1 s = parse_on today2 s.
Proof.
  intros [_ [Hlen _]]. unfold parse_on.
  destruct (Cal.parse s); [reflexivity|].
  destruct (Nat.eqb_spec (String.length s) 7) as [H|_]; [lia | reflexivity].
Qed.




End Determinism.
